(** * SpeechBot: the speech-metrics engine of [bot.py]

    A shallow embedding of the analysis functions of [bot.py]
    ([count_fillers], [analyze_prosody], [analyze_speech], [detect_pauses],
    [analyze_text_quality], [detect_language], [update_user_stats]), of
    its menu handlers, and of the vocabularies, the button labels and
    [sanitize_html] of [utils.py], followed by the properties the
    specification states about them and by further properties of the code.

    Conventions of the embedding.
    - A Python [float] is an exact rational ([Q]); no rounding takes place
      inside an arithmetic operation, and [nan]/[inf] do not exist.  Every
      comparison of the source is the comparison of [Q].
    - A Python [int] is a [Z]; a [str] is a [string], a non-ASCII character
      standing as the bytes of its UTF-8 encoding.
    - A [dict] is a [gmap]; a [list] is a [list].
    - A raised exception is the [Raise] outcome of [result]; a division
      by a value of the program is [py_div], which raises
      [ZeroDivisionError] on the divisor 0.
    - The functions of librosa, numpy, nltk and of Python's [str]/[re]
      that need the Unicode tables or real-number arithmetic are fields of
      the class [Externals]; the code of the repository is written over
      them.  [np.percentile] and [librosa.get_duration] are rational
      computations and are written out. *)

From Stdlib Require Import QArith Qround Qabs Qpower Lqa ZArith Lia Ascii String.
From stdpp Require Import gmap strings list sorting.

Open Scope Q_scope.

(** ** Python values *)

Inductive exn : Type :=
  | ZeroDivisionError
  | IndexError
  | KeyError.

Inductive result (A : Type) : Type :=
  | Ok (a : A)
  | Raise (e : exn).
Arguments Ok {A} a.
Arguments Raise {A} e.

#[global] Instance result_ret : MRet result := fun A a => Ok a.

#[global] Instance result_bind : MBind result := fun A B k r =>
  match r with
  | Ok a => k a
  | Raise e => Raise e
  end.

(** [len(l)] *)
Definition len {A : Type} (l : list A) : Z := Z.of_nat (length l).

(** [sum(l)] over integers: accumulation from the left, starting at 0. *)
Definition py_sum (l : list Z) : Z := foldl Z.add 0%Z l.

(** [sum(1 for p in l if cond(p))] *)
Definition count_if {A : Type} (cond : A -> bool) (l : list A) : Z :=
  py_sum (map (fun _ => 1%Z) (List.filter cond l)).

(** [d.values()] of a dictionary. *)
Definition values {K : Type} `{Countable K} {V : Type} (d : gmap K V) : list V :=
  (map_to_list d).*2.

(** Comparisons of floats, as booleans. *)
Definition Qleb (x y : Q) : bool := Qle_bool x y.
Definition Qltb (x y : Q) : bool := negb (Qle_bool y x).

(** [round(x)] to the nearest integer, ties to the even one. *)
Definition round_half_even (x : Q) : Z :=
  let f := Qfloor x in
  match Qcompare (x - inject_Z f) (1 # 2) with
  | Lt => f
  | Gt => (f + 1)%Z
  | Eq => if Z.even f then f else (f + 1)%Z
  end.

(** [round(x, ndigits)] *)
Definition py_round (x : Q) (ndigits : Z) : Q :=
  inject_Z (round_half_even (x * 10 ^ ndigits)) / 10 ^ ndigits.

(** [a / b] *)
Definition py_div (a b : Q) : result Q :=
  if Qeq_bool b 0 then Raise ZeroDivisionError else Ok (a / b).

(** ** numpy and librosa functions that are rational computations *)

Module np.

(** Insertion into a sorted list, and the sort [np.percentile] starts
    with. *)
Fixpoint insert_sorted (x : Q) (l : list Q) : list Q :=
  match l with
  | [] => [x]
  | y :: l' => if Qleb x y then x :: l else y :: insert_sorted x l'
  end.

Fixpoint sort (l : list Q) : list Q :=
  match l with
  | [] => []
  | x :: l' => insert_sorted x (sort l')
  end.

(** [np.percentile(a, q)] with the default (linear) interpolation: the
    value at the virtual index [q/100 * (n-1)] of the sorted array,
    interpolated between its two neighbours.  On an empty array numpy
    has no element to index, which is the [IndexError] outcome here. *)
Definition interpolate (s : list Q) (q : Q) : Q :=
  let n := len s in
  let pos := q / 100 * inject_Z (n - 1) in
  let lo := Qfloor pos in
  let hi := Z.min (lo + 1) (n - 1) in
  let g := pos - inject_Z lo in
  let lo_v := nth (Z.to_nat lo) s 0 in
  let hi_v := nth (Z.to_nat hi) s 0 in
  lo_v + (hi_v - lo_v) * g.

Definition percentile (a : list Q) (q : Q) : result Q :=
  match a with
  | [] => Raise IndexError
  | _ => Ok (interpolate (sort a) q)
  end.

(** [np.where(a < t)[0]]: the indices of the entries below [t], in
    increasing order; [where_lt_from i] numbers the entries from [i]. *)
Fixpoint where_lt_from (i : Z) (a : list Q) (t : Q) : list Z :=
  match a with
  | [] => []
  | e :: a' =>
      if Qltb e t then i :: where_lt_from (i + 1) a' t
      else where_lt_from (i + 1) a' t
  end.

Definition where_lt (a : list Q) (t : Q) : list Z := where_lt_from 0 a t.

(** [col.argmax()]: the first index of a maximal entry. *)
Fixpoint argmax_from (i best_i : nat) (best : Q) (col : list Q) : nat :=
  match col with
  | [] => best_i
  | x :: col' =>
      if Qltb best x then argmax_from (S i) i x col'
      else argmax_from (S i) best_i best col'
  end.

Definition argmax (col : list Q) : nat :=
  match col with
  | [] => 0%nat
  | x :: col' => argmax_from 1 0 x col'
  end.

End np.

(** [librosa.get_duration(y=y, sr=sr)]: the number of samples over the
    sample rate. *)
Definition librosa_get_duration (y : list Q) (sr : Q) : Q :=
  inject_Z (len y) / sr.

(** ** External functions *)

Class Externals : Type := {
  (** [s.lower()] *)
  str_lower : string -> string;
  (** [re.findall(r"\b\w+\b", s)] *)
  re_findall_words : string -> list string;
  (** [s.split()] *)
  str_split : string -> list string;
  (** [len(s)], in characters *)
  str_len : string -> Z;
  (** [nltk.tokenize.sent_tokenize(text, language=language)] *)
  sent_tokenize : string -> string -> list string;
  (** [librosa.load(path, sr=16000)[0]]: the samples of the file *)
  librosa_load : string -> list Q;
  (** [librosa.feature.rms(y=y, frame_length=.., hop_length=..)[0]] *)
  librosa_feature_rms : list Q -> Z -> Z -> list Q;
  (** [librosa.piptrack(y=y, sr=sr, fmin=.., fmax=..)]: for each frame
      [i], the columns [pitches[:, i]] and [magnitudes[:, i]] *)
  librosa_piptrack : list Q -> Q -> Q -> Q -> list (list Q * list Q);
  (** [librosa.effects.harmonic(pitch)] *)
  librosa_effects_harmonic : list Q -> list Q;
  (** [np.std(a)] and [np.mean(a)] *)
  np_std : list Q -> Q;
  np_mean : list Q -> Q
}.

(** ** utils.py *)

Module utils.

Definition FILLERS_RU : list string := [
  "ну"; "типа"; "короче"; "в общем"; "как бы"; "значит"; "понимаешь"; "вроде"; "собственно"; "это самое";
  "вообще"; "ещё"; "просто"; "например"; "я думаю"; "знаешь"; "ладно"; "вот"; "так сказать"; "сразу";
  "кажется"; "так"; "эх"; "короче говоря"; "между прочим"; "по сути"; "как правило"; "в итоге";
  "в принципе"; "честно говоря"; "на самом деле"; "прямо"; "ну вот"; "кстати"; "при этом";
  "если честно"; "как ни странно"; "пожалуй"; "типа того"; "так вот"; "в общем-то"; "сильно"; "пожалуйста";
  "эээ"; "эмм"; "ммм"; "ах"; "ой"; "угу"; "ээ…"; "эмм…"; "мм…"; "ах…"; "ох"; "эх…"; "мм-хм"; "ааа"
]%string.

Definition FILLERS_EN : list string := [
  "um"; "uh"; "like"; "you know"; "basically"; "actually"; "literally"; "sort of"; "kind of"; "i mean";
  "right"; "okay"; "well"; "so"; "anyway"; "honestly"; "seriously"; "obviously"; "definitely"; "totally";
  "really"; "just"; "maybe"; "perhaps"; "probably"; "essentially"; "practically"; "virtually"; "generally";
  "apparently"; "supposedly"; "presumably"; "allegedly"; "hmm"; "err"; "ah"; "oh"; "yeah"; "yep"; "nah"
]%string.

End utils.

(** ** bot.py: constants *)

Definition FILLERS_RU : list string := utils.FILLERS_RU.
Definition FILLERS_EN : list string := utils.FILLERS_EN.
Definition OPTIMAL_WPM_MIN : Q := 120.
Definition OPTIMAL_WPM_MAX : Q := 150.

(** ** bot.py: the analysis functions *)

(** The dictionary [analyze_prosody] returns. *)
Record prosody_report : Type := {
  pitch_mean : Q;
  pitch_variance : Q;
  monotony : string;
  energy_variance : Q;
  energy_mean : Q;
  energy_rating : string
}.

(** The dictionary [analyze_speech] returns. *)
Record speech_analysis : Type := {
  duration_sec : Q;
  word_count : Z;
  words_per_minute : Q;
  tempo_rating : string;
  short_pauses : Z;
  long_pauses : Z;
  fillers_count : Z;
  filler_details : gmap string Z;
  prosody : prosody_report
}.

(** The dictionary [analyze_text_quality] returns. *)
Record text_quality : Type := {
  sentence_count : Z;
  avg_sentence_length : Q;
  long_sentences : list string;
  repetitions : gmap string Z
}.

(** The variables of the loop of [detect_pauses]. *)
Record pause_loop : Type := {
  start : Z;
  prev : Z;
  pauses : list Q
}.

(** [d[w] = d.get(w, 0) + 1] *)
Definition incr (w : string) (d : gmap string Z) : gmap string Z :=
  <[w := (default 0 (d !! w) + 1)%Z]> d.

Section Engine.

Context `{Externals}.

Definition count_fillers (text lang : string) : Z * gmap string Z :=
  let fillers : gset string :=
    list_to_set (if String.eqb lang "ru" then FILLERS_RU else FILLERS_EN) in
  let words := re_findall_words (str_lower text) in
  let filler_details :=
    foldl (fun d w => if decide (w ∈ fillers) then incr w d else d) ∅ words in
  let total_count := py_sum (values filler_details) in
  (total_count, filler_details).

(** The local variables of [analyze_prosody]. *)
Definition prosody_pitch (y : list Q) (sr : Q) : list Q :=
  let pitch :=
    foldl (fun pitch '(pitches_i, magnitudes_i) =>
             let idx := np.argmax magnitudes_i in
             let val := nth idx pitches_i 0 in
             if Qltb 0 val then pitch ++ [val] else pitch)
          [] (librosa_piptrack y sr 75 350) in
  if (10 <? len pitch)%Z then librosa_effects_harmonic pitch else pitch.

Definition prosody_pitch_var (y : list Q) (sr : Q) : Q :=
  let pitch := prosody_pitch y sr in
  if (1 <? len pitch)%Z then np_std pitch else 0.

Definition prosody_pitch_mean (y : list Q) (sr : Q) : Q :=
  let pitch := prosody_pitch y sr in
  if (1 <? len pitch)%Z then np_mean pitch else 0.

Definition prosody_energy_var (y : list Q) : Q :=
  np_std (librosa_feature_rms y 2048 512).

Definition prosody_energy_mean (y : list Q) : Q :=
  np_mean (librosa_feature_rms y 2048 512).

Definition analyze_prosody (y : list Q) (sr : Q) (lang : string) : prosody_report :=
  let pitch_var := prosody_pitch_var y sr in
  let pitch_mean := prosody_pitch_mean y sr in
  let energy_var := prosody_energy_var y in
  let energy_mean := prosody_energy_mean y in
  let '(monotony, dynamics) :=
    if String.eqb lang "en" then
      ((if Qltb 60 pitch_var then "very low (lively sound)"
        else if Qltb 30 pitch_var then "moderate"
        else "high (monotonous)")%string,
       (if Qltb 0.03 energy_var then "pronounced dynamics"
        else if Qltb 0.015 energy_var then "medium dynamics"
        else "flat (almost no volume changes)")%string)
    else
      ((if Qltb 60 pitch_var then "очень низкая (живое звучание)"
        else if Qltb 30 pitch_var then "умеренная"
        else "высокая (монотонно)")%string,
       (if Qltb 0.03 energy_var then "ярко выраженная динамика"
        else if Qltb 0.015 energy_var then "средняя динамика"
        else "плоская (почти нет изменений громкости)")%string) in
  {| pitch_mean := py_round pitch_mean 1;
     pitch_variance := py_round pitch_var 1;
     monotony := monotony;
     energy_variance := py_round energy_var 4;
     energy_mean := py_round energy_mean 4;
     energy_rating := dynamics |}.

(** One iteration of [for f in silence_frames[1:]]. *)
Definition pause_step (frame_duration : Q) (st : pause_loop) (f : Z) : pause_loop :=
  let st' :=
    if (1 <? f - prev st)%Z then
      let duration := inject_Z (prev st - start st) * frame_duration in
      {| start := f;
         prev := prev st;
         pauses := if Qltb 0.25 duration then pauses st ++ [duration]
                   else pauses st |}
    else st in
  {| start := start st'; prev := f; pauses := pauses st' |}.

Definition detect_pauses (y : list Q) (sr : Q) : result (list Q) :=
  let hop := 512%Z in
  if Qeq_bool sr 0 then Raise ZeroDivisionError else
  let frame_duration := inject_Z hop / sr in
  let energy := librosa_feature_rms y 2048 hop in
  threshold ← np.percentile energy 15;
  let silence_frames := np.where_lt energy threshold in
  match silence_frames with
  | [] => Ok []
  | f0 :: rest =>
      let st := foldl (pause_step frame_duration)
                      {| start := f0; prev := f0; pauses := [] |} rest in
      let duration := inject_Z (prev st - start st) * frame_duration in
      Ok (if Qltb 0.25 duration then pauses st ++ [duration] else pauses st)
  end.

(** The local variables [duration] and [wpm] of [analyze_speech]. *)
Definition speech_duration (audio_path : string) : Q :=
  librosa_get_duration (librosa_load audio_path) 16000.

Definition speech_wpm (audio_path text : string) : result Q :=
  let duration := speech_duration audio_path in
  let words := re_findall_words text in
  if Qltb 0 duration then
    minutes ← py_div duration 60;
    py_div (inject_Z (len words)) minutes
  else Ok 0.

Definition analyze_speech (audio_path text lang : string) : result speech_analysis :=
  let y := librosa_load audio_path in
  let sr := 16000 in
  let duration := speech_duration audio_path in
  let words := re_findall_words text in
  wpm ← speech_wpm audio_path text;
  let tempo_rating :=
    if String.eqb lang "en" then
      (if Qleb OPTIMAL_WPM_MIN wpm && Qleb wpm OPTIMAL_WPM_MAX then "optimal"
       else if Qltb wpm OPTIMAL_WPM_MIN then "too slow"
       else "too fast")%string
    else
      (if Qleb OPTIMAL_WPM_MIN wpm && Qleb wpm OPTIMAL_WPM_MAX then "оптимальный"
       else if Qltb wpm OPTIMAL_WPM_MIN then "слишком медленный"
       else "слишком быстрый")%string in
  pauses ← detect_pauses y sr;
  let short_pauses := count_if (fun p => Qleb 0.3 p && Qleb p 1.0) pauses in
  let long_pauses := count_if (fun p => Qltb 1.5 p) pauses in
  let '(fillers_count, filler_details) := count_fillers text lang in
  let prosody := analyze_prosody y sr lang in
  Ok {| duration_sec := py_round duration 2;
        word_count := len words;
        words_per_minute := py_round wpm 1;
        tempo_rating := tempo_rating;
        short_pauses := short_pauses;
        long_pauses := long_pauses;
        fillers_count := fillers_count;
        filler_details := filler_details;
        prosody := prosody |}.

Definition analyze_text_quality (text lang : string) : result text_quality :=
  let language := (if String.eqb lang "ru" then "russian" else "english")%string in
  let sentences := sent_tokenize text language in
  avg_sentence_len ←
    match sentences with
    | [] => Ok 0
    | _ => py_div (inject_Z (py_sum (map (fun s => len (str_split s)) sentences)))
                  (inject_Z (len sentences))
    end;
  let too_long := List.filter (fun s => (20 <? len (str_split s))%Z) sentences in
  let words := re_findall_words (str_lower text) in
  let repetitions :=
    foldl (fun d w => if (4 <? str_len w)%Z then incr w d else d) ∅ words in
  let repetitions := filter (fun wc => (3 <= wc.2)%Z) repetitions in
  Ok {| sentence_count := len sentences;
        avg_sentence_length := avg_sentence_len;
        long_sentences := too_long;
        repetitions := repetitions |}.

End Engine.

(** ** bot.py: the per-user statistics *)

(** An entry of ['analyses_history']. *)
Record history_entry : Type := {
  date : string;
  wpm : Q;
  fillers : Z;
  duration : Q
}.

(** The dictionary kept for one user in [user_stats]. *)
Record user_record : Type := {
  total_analyses : Z;
  total_wpm : Q;
  total_fillers : Z;
  last_analysis_date : option string;
  analyses_history : list history_entry
}.

(** [user_stats[user_id]] *)
Definition getitem (user_stats : gmap Z user_record) (user_id : Z) : result user_record :=
  match user_stats !! user_id with
  | Some stats => Ok stats
  | None => Raise KeyError
  end.

(** [update_user_stats] works on the global dictionary [user_stats], which
    is threaded through here, and reads the clock
    ([datetime.now().strftime('%Y-%m-%d %H:%M')]), whose answer is the
    argument [now].  The dictionary [stats] is the object stored under
    [user_id], created by this function and reachable from no other key:
    its updates are written back under [user_id]. *)
Definition update_user_stats (user_stats : gmap Z user_record) (now : string)
    (user_id : Z) (analysis : speech_analysis) : result (gmap Z user_record) :=
  let user_stats :=
    match user_stats !! user_id with
    | None =>
        <[user_id := {| total_analyses := 0;
                        total_wpm := 0;
                        total_fillers := 0;
                        last_analysis_date := None;
                        analyses_history := [] |}]> user_stats
    | Some _ => user_stats
    end in
  stats ← getitem user_stats user_id;
  let total_analyses' := (total_analyses stats + 1)%Z in
  let total_wpm' := total_wpm stats + words_per_minute analysis in
  let total_fillers' := (total_fillers stats + fillers_count analysis)%Z in
  let last_analysis_date' := now in
  let history :=
    analyses_history stats ++
      [ {| date := last_analysis_date';
           wpm := words_per_minute analysis;
           fillers := fillers_count analysis;
           duration := duration_sec analysis |} ] in
  let history := if (10 <? len history)%Z then drop 1 history else history in
  Ok (<[user_id := {| total_analyses := total_analyses';
                      total_wpm := total_wpm';
                      total_fillers := total_fillers';
                      last_analysis_date := Some last_analysis_date';
                      analyses_history := history |}]> user_stats).

(** ** Stand-ins for the external functions

    Executable instances of [Externals], on which the functions above run:
    the string functions as Python has them on ASCII text, the frame
    energies on librosa's frame grid (a frame every [hop_length] samples,
    centred, the signal padded with zeros), with the peak amplitude of a
    frame in the place of its root mean square, and half the range of an
    array in the place of its standard deviation (the two agree on arrays
    of two entries). *)

Module Sample.

Definition in_range (lo hi : N) (c : ascii) : bool :=
  ((lo <=? N_of_ascii c) && (N_of_ascii c <=? hi))%N.

Definition ascii_lower (c : ascii) : ascii :=
  if in_range 65 90 c then ascii_of_N (N_of_ascii c + 32) else c.

(** [\w]: letters, digits, underscore; a byte of a non-ASCII character
    counts as a letter. *)
Definition is_word_char (c : ascii) : bool :=
  in_range 48 57 c || in_range 65 90 c || in_range 95 95 c
  || in_range 97 122 c || in_range 128 255 c.

Definition is_space (c : ascii) : bool :=
  in_range 9 13 c || in_range 28 32 c.

Definition is_terminator (c : ascii) : bool :=
  in_range 33 33 c || in_range 46 46 c || in_range 63 63 c.

Definition flush (cur : list ascii) : list string :=
  match cur with
  | [] => []
  | _ => [string_of_list_ascii (rev cur)]
  end.

(** The maximal runs of characters that satisfy [p]. *)
Fixpoint runs_from (p : ascii -> bool) (cur s : list ascii) : list string :=
  match s with
  | [] => flush cur
  | c :: s' =>
      if p c then runs_from p (c :: cur) s'
      else flush cur ++ runs_from p [] s'
  end.

Definition runs (p : ascii -> bool) (s : string) : list string :=
  runs_from p [] (list_ascii_of_string s).

(** Sentences end at a full stop, an exclamation or a question mark. *)
Fixpoint sentences_from (cur s : list ascii) : list string :=
  match s with
  | [] => flush cur
  | c :: s' =>
      if is_terminator c then flush (c :: cur) ++ sentences_from [] s'
      else match cur with
           | [] => if is_space c then sentences_from [] s'
                   else sentences_from [c] s'
           | _ => sentences_from (c :: cur) s'
           end
  end.

Definition lower (s : string) : string :=
  string_of_list_ascii (map ascii_lower (list_ascii_of_string s)).

Definition peak (frame : list Q) : Q :=
  foldl (fun m x => if Qltb m (Qabs x) then Qabs x else m) 0 frame.

(** The frame grid of [librosa.feature.rms] (centred frames): the signal
    is padded with [frame_length / 2] zeros on both sides and frame [i]
    starts at sample [i * hop_length] of the padded signal. *)
Definition framed (frame_energy : list Q -> Q) (y : list Q)
    (frame_length hop_length : Z) : list Q :=
  let pad := repeat 0 (Z.to_nat (frame_length / 2)) in
  let padded := pad ++ y ++ pad in
  map (fun i => frame_energy
                  (take (Z.to_nat frame_length)
                        (drop (i * Z.to_nat hop_length) padded)))
      (seq 0 (S (length y / Z.to_nat hop_length))).

Definition half_range (a : list Q) : Q :=
  match a with
  | [] => 0
  | x :: a' =>
      let hi := foldl (fun m v => if Qltb m v then v else m) x a' in
      let lo := foldl (fun m v => if Qltb v m then v else m) x a' in
      Qred ((hi - lo) / 2)
  end.

Definition mean (a : list Q) : Q :=
  Qred (foldl Qplus 0 a / inject_Z (len a)).

(** A recording whose samples are [recording], whose pitch track is
    [pitch_frames] and whose frame energies are computed by [rms]. *)
Definition externals (recording : list Q) (pitch_frames : list (list Q * list Q))
    (rms : list Q -> Z -> Z -> list Q) : Externals :=
  {| str_lower := lower;
     re_findall_words := runs is_word_char;
     str_split := runs (fun c => negb (is_space c));
     str_len := fun s => Z.of_nat (String.length s);
     sent_tokenize := fun text _ => sentences_from [] (list_ascii_of_string text);
     librosa_load := fun _ => recording;
     librosa_feature_rms := rms;
     librosa_piptrack := fun _ _ _ _ => pitch_frames;
     librosa_effects_harmonic := fun pitch => pitch;
     np_std := half_range;
     np_mean := mean |}.

(** The recording with librosa's frame grid. *)
Definition recorded (recording : list Q) : Externals :=
  externals recording [] (framed peak).

(** A recording known by its frame energies. *)
Definition with_energy (energy : list Q) : Externals :=
  externals [] [] (fun _ _ _ => energy).

End Sample.

(** * The vocabulary of the specification *)

(** The comparisons of [Q] are decidable. *)
#[global] Instance Qle_decision (x y : Q) : Decision (x <= y) :=
  match Qlt_le_dec y x with
  | left Hlt => right (Qlt_not_le y x Hlt)
  | right Hle => left Hle
  end.

#[global] Instance Qlt_decision (x y : Q) : Decision (x < y) :=
  match Qlt_le_dec x y with
  | left Hlt => left Hlt
  | right Hle => right (Qle_not_lt y x Hle)
  end.

(** The sum of the per-token counts of a breakdown. *)
Definition breakdown_sum (d : gmap string Z) : Z :=
  map_fold (fun _ c acc => (c + acc)%Z) 0%Z d.

(** The vocabulary [count_fillers] matches against. *)
Definition vocabulary (lang : string) : gset string :=
  list_to_set (if String.eqb lang "ru" then FILLERS_RU else FILLERS_EN).

(** The three tempo ratings and their label in each language. *)
Inductive tempo : Type :=
  | TooSlow
  | OptimalTempo
  | TooFast.

Definition tempo_label (lang : string) (t : tempo) : string :=
  if String.eqb lang "en" then
    match t with
    | OptimalTempo => "optimal"
    | TooSlow => "too slow"
    | TooFast => "too fast"
    end
  else
    match t with
    | OptimalTempo => "оптимальный"
    | TooSlow => "слишком медленный"
    | TooFast => "слишком быстрый"
    end.

(** The three monotony ratings, the three dynamics ratings and their label
    in each language. *)
Inductive monotony_level : Type :=
  | Lively
  | Moderate
  | Monotonous.

Inductive dynamics_level : Type :=
  | Pronounced
  | Medium
  | Flat.

Definition monotony_label (lang : string) (m : monotony_level) : string :=
  if String.eqb lang "en" then
    match m with
    | Lively => "very low (lively sound)"
    | Moderate => "moderate"
    | Monotonous => "high (monotonous)"
    end
  else
    match m with
    | Lively => "очень низкая (живое звучание)"
    | Moderate => "умеренная"
    | Monotonous => "высокая (монотонно)"
    end.

Definition dynamics_label (lang : string) (d : dynamics_level) : string :=
  if String.eqb lang "en" then
    match d with
    | Pronounced => "pronounced dynamics"
    | Medium => "medium dynamics"
    | Flat => "flat (almost no volume changes)"
    end
  else
    match d with
    | Pronounced => "ярко выраженная динамика"
    | Medium => "средняя динамика"
    | Flat => "плоская (почти нет изменений громкости)"
    end.

(** Frame [i] is silent: its energy is below the threshold [t]. *)
Definition silent (energy : list Q) (t : Q) (i : Z) : Prop :=
  (0 <= i)%Z /\ exists e, energy !! Z.to_nat i = Some e /\ e < t.

(** The frames [first .. last] are a maximal run of consecutive silent
    frames: all of them are silent and the frames next to the run, if any,
    are not. *)
Definition maximal_silent_run (energy : list Q) (t : Q) (first last : Z) : Prop :=
  (first <= last)%Z /\
  (forall i, (first <= i <= last)%Z -> silent energy t i) /\
  ~ silent energy t (first - 1) /\
  ~ silent energy t (last + 1).

(** The number of frames of the run [first .. last]. *)
Definition run_length (first last : Z) : Z := last - first + 1.

(** What the loop of [detect_pauses] establishes for a duration it appends,
    [is_silent] telling the silent frames: the duration is above a quarter
    of a second and was measured on a maximal run. *)
Definition measured (is_silent : Z -> Prop) (frame_duration : Q) (d : Q) : Prop :=
  0.25 < d /\
  exists first last : Z,
    (first <= last)%Z /\
    (forall i, (first <= i <= last)%Z -> is_silent i) /\
    ~ is_silent (first - 1)%Z /\
    ~ is_silent (last + 1)%Z /\
    d = inject_Z (last - first) * frame_duration.

(** The invariant of [for f in silence_frames[1:]], [rest] being the
    frames still to visit. *)
Definition loop_inv (is_silent : Z -> Prop) (frame_duration : Q)
    (st : pause_loop) (rest : list Z) : Prop :=
  (start st <= prev st)%Z /\
  (forall i, (start st <= i <= prev st)%Z -> is_silent i) /\
  ~ is_silent (start st - 1)%Z /\
  (forall i, i ∈ rest <-> is_silent i /\ (prev st < i)%Z) /\
  StronglySorted Z.lt rest /\
  Forall (measured is_silent frame_duration) (pauses st).

(** ** Sample recordings *)

(** Ten frames without energy followed by ninety frames of energy 1. *)
Definition ten_silent_frames : list Q := repeat 0 10 ++ repeat 1 90.

(** The 157 frames of five seconds of silence. *)
Definition silent_frames : list Q := repeat 0 157.

(** Three runs of 11, 37 and 49 frames without energy between frames of
    energy 1. *)
Definition three_silences : list Q :=
  repeat 0 11 ++ repeat 1 200 ++ repeat 0 37 ++ repeat 1 200
  ++ repeat 0 49 ++ repeat 1 203.

(** A recording of 2.875 seconds: 6000 samples of silence, then 40000
    samples of amplitude 1. *)
Definition short_recording : list Q :=
  repeat 0 (Z.to_nat 6000) ++ repeat 1 (Z.to_nat 40000).

(** A voice whose pitch observations are 100 and 160 Hz (standard
    deviation 30) over frames of energy 0 and 0.03 (standard deviation
    0.015). *)
Definition boundary_voice : Externals :=
  Sample.externals [] [([100], [1]); ([160], [1])] (fun _ _ _ => [0; 0.03]).

(** A recording of [seconds] seconds of silence, its frame energies left
    aside. *)
Definition silence (seconds : Z) : Externals :=
  Sample.externals (repeat 0 (Z.to_nat (seconds * 16000))) [] (fun _ _ _ => [0]).

(** * Further vocabulary *)

(** The number of occurrences of the token [w] in [words]. *)
Definition occurrences (w : string) (words : list string) : Z :=
  len (filter (fun x => x = w) words).

Section Observations.

Context `{Externals}.

(** The voiced pitch observations of [analyze_prosody], before the
    harmonic smoothing: for each frame the pitch of the bin of largest
    magnitude, when it is positive. *)
Definition voiced_pitch (y : list Q) (sr : Q) : list Q :=
  foldl (fun pitch '(pitches_i, magnitudes_i) =>
           let idx := np.argmax magnitudes_i in
           let val := nth idx pitches_i 0 in
           if Qltb 0 val then pitch ++ [val] else pitch)
        [] (librosa_piptrack y sr 75 350).

End Observations.

(** The sum of a list of durations. *)
Definition Qsum (l : list Q) : Q := foldr Qplus 0 l.

(** [l[-n:]]: the last [n] entries of a list, all of it when it is
    shorter. *)
Definition last_n {A : Type} (n : nat) (l : list A) : list A :=
  drop (length l - n) l.

(** The entry [update_user_stats] appends to ['analyses_history']. *)
Definition summary (now : string) (analysis : speech_analysis) : history_entry :=
  {| date := now;
     wpm := words_per_minute analysis;
     fillers := fillers_count analysis;
     duration := duration_sec analysis |}.

(** A run of the bot: the calls [update_user_stats(user_id, analysis)] in
    their order, each with the reading of the clock it makes. *)
Fixpoint replay (calls : list (string * Z * speech_analysis))
    (user_stats : gmap Z user_record) : result (gmap Z user_record) :=
  match calls with
  | [] => Ok user_stats
  | (now, user_id, analysis) :: calls' =>
      user_stats' ← update_user_stats user_stats now user_id analysis;
      replay calls' user_stats'
  end.

(** The entries a run appends for the user [user_id]. *)
Definition entries_of (user_id : Z) (calls : list (string * Z * speech_analysis))
    : list history_entry :=
  map (fun c => summary c.1.1 c.2)
      (filter (fun c => c.1.2 = user_id) calls).

(** The record of a user is the account of the entries [es]: the counters
    are their number and sums, the date is the last one, and the history
    holds the last ten of them. *)
Definition accounts_for (es : list history_entry) (r : user_record) : Prop :=
  total_analyses r = len es /\
  total_wpm r = foldl Qplus 0 (map wpm es) /\
  total_fillers r = foldl Z.add 0%Z (map fillers es) /\
  last_analysis_date r = date <$> last es /\
  analyses_history r = last_n 10 es.

(** What a store holds after the calls [calls]: nothing for a user who
    made none of them, and for the others the account of their entries. *)
Definition store_accounts (calls : list (string * Z * speech_analysis))
    (user_stats : gmap Z user_record) : Prop :=
  forall user_id,
    match user_stats !! user_id with
    | None => entries_of user_id calls = []
    | Some stats =>
        entries_of user_id calls <> [] /\
        accounts_for (entries_of user_id calls) stats
    end.

(** The record [update_user_stats] leaves for a user whose record was
    [stats] ([None]: no record yet), when the clock reads [now]. *)
Definition updated (now : string) (analysis : speech_analysis)
    (stats : option user_record) : user_record :=
  let stats :=
    default {| total_analyses := 0;
               total_wpm := 0;
               total_fillers := 0;
               last_analysis_date := None;
               analyses_history := [] |} stats in
  let history := analyses_history stats ++ [summary now analysis] in
  {| total_analyses := total_analyses stats + 1;
     total_wpm := total_wpm stats + words_per_minute analysis;
     total_fillers := total_fillers stats + fillers_count analysis;
     last_analysis_date := Some now;
     analyses_history := if (10 <? len history)%Z then drop 1 history else history |}.

(** A record without its dates: the counters, and the values of the
    entries of the history. *)
Definition undated (stats : user_record) : Z * Q * Z * list (Q * Z * Q) :=
  (total_analyses stats, total_wpm stats, total_fillers stats,
   map (fun e => (wpm e, fillers e, duration e)) (analyses_history stats)).


(** ** bot.py: the language of a transcript *)

(** [[а-яА-ЯёЁ]] and [[a-zA-Z]], on the code point of a character. *)
Definition is_cyrillic (c : N) : bool :=
  ((0x430 <=? c) && (c <=? 0x44F) || (0x410 <=? c) && (c <=? 0x42F)
   || (c =? 0x451) || (c =? 0x401))%N.

Definition is_latin (c : N) : bool :=
  ((0x61 <=? c) && (c <=? 0x7A) || (0x41 <=? c) && (c <=? 0x5A))%N.

(** [detect_language], the text being the list of the code points of its
    characters. *)
Definition detect_language (text : list N) : string :=
  let cyrillic_chars := len (List.filter is_cyrillic text) in
  let latin_chars := len (List.filter is_latin text) in
  if (latin_chars <? cyrillic_chars)%Z
     && Qltb (inject_Z (len text) * 0.3) (inject_Z cyrillic_chars)
  then "ru"%string else "en"%string.

(** ** bot.py: the parts of a long reply ([audio_handler]) *)

(** [l[i:j]] for [0 <= i <= j]. *)
Definition py_slice {A : Type} (l : list A) (i j : nat) : list A :=
  take (j - i) (drop i l).

(** [range(start, stop, step)] for a positive step: [count] values from
    [start], [step] apart. *)
Fixpoint range_from (start step count : nat) : list nat :=
  match count with
  | O => []
  | S count' => start :: range_from (start + step) step count'
  end.

Definition py_range (start stop step : nat) : list nat :=
  range_from start step ((stop - start + (step - 1)) / step).

(** The texts [audio_handler] sends for the formatted response, a list of
    characters: parts of 4096 characters when it is longer than that, the
    response itself otherwise. *)
Definition reply_parts {A : Type} (response : list A) : list (list A) :=
  if (4096 <? len response)%Z then
    map (fun i => py_slice response i (i + 4096))
        (py_range 0 (length response) 4096)
  else [response].

(** ** utils.py: [sanitize_html]

    The text is the list of the bytes of its UTF-8 encoding; the four
    letters outside ASCII that [re.IGNORECASE] lets [i], [s], [k] and
    [[a-zA-Z]] match (U+0130, U+0131, U+017F, U+212A) are their byte
    sequences. *)

Definition ALLOWED_TAGS : list string :=
  ["b"; "i"; "u"; "code"; "pre"; "a"; "blockquote"]%string.

Definition byte_in (lo hi : N) (c : ascii) : bool :=
  ((lo <=? N_of_ascii c) && (N_of_ascii c <=? hi))%N.

(** The lower-case form of an ASCII letter, other bytes unchanged. *)
Definition ascii_fold (c : ascii) : ascii :=
  if byte_in 65 90 c then ascii_of_N (N_of_ascii c + 32) else c.

(** One letter [p] of a tag name against the text, case ignored: the rest
    of the text after the character it matches, if it matches one. *)
Definition match_letter (p : ascii) (r : list ascii) : option (list ascii) :=
  match r with
  | [] => None
  | c :: r' =>
      if Ascii.eqb (ascii_fold c) p then Some r'
      else
        match N_of_ascii p, N_of_ascii c, r' with
        | 105%N, 196%N, c1 :: r'' =>        (* i: U+0130, U+0131 *)
            if byte_in 176 177 c1 then Some r'' else None
        | 115%N, 197%N, c1 :: r'' =>        (* s: U+017F *)
            if byte_in 191 191 c1 then Some r'' else None
        | 107%N, 226%N, c1 :: c2 :: r'' =>  (* k: U+212A *)
            if byte_in 132 132 c1 && byte_in 170 170 c2 then Some r'' else None
        | _, _, _ => None
        end
  end.

(** A tag name is a prefix of the text, case ignored. *)
Fixpoint match_name (name : list ascii) (r : list ascii) : bool :=
  match name with
  | [] => true
  | p :: name' =>
      match match_letter p r with
      | Some r' => match_name name' r'
      | None => false
      end
  end.

(** The lookahead, an allowed name followed by an optional [href]
    attribute: the optional group may match the empty text, so the
    lookahead succeeds as soon as an allowed name is a prefix of the
    text. *)
Definition allowed_ahead (r : list ascii) : bool :=
  existsb (fun name => match_name (list_ascii_of_string name) r) ALLOWED_TAGS.

(** The text starts with a character of [[a-zA-Z0-9]], case ignored. *)
Definition alnum_ahead (r : list ascii) : bool :=
  match r with
  | [] => false
  | c :: r' =>
      byte_in 48 57 c || byte_in 65 90 c || byte_in 97 122 c
      || match N_of_ascii c, r' with
         | 196%N, c1 :: _ => byte_in 176 177 c1
         | 197%N, c1 :: _ => byte_in 191 191 c1
         | 226%N, c1 :: c2 :: _ => byte_in 132 132 c1 && byte_in 170 170 c2
         | _, _ => false
         end
  end.

(** [.*?>] finds its [>]: the first [>] of the text comes before any line
    feed. *)
Fixpoint closes (r : list ascii) : bool :=
  match r with
  | [] => false
  | c :: r' =>
      if byte_in 62 62 c then true
      else if byte_in 10 10 c then false
      else closes r'
  end.

(** The pattern matches at a [<] followed by [s]: after the optional [/],
    no allowed name ahead, a letter or digit, and a [>] on the line. *)
Definition tag_ahead (s : list ascii) : bool :=
  let r := match s with
           | c :: s' => if byte_in 47 47 c then s' else s
           | [] => s
           end in
  negb (allowed_ahead r) && alnum_ahead r && closes r.

(** [re.sub] with the empty replacement: the text is copied until a match starts,
    and skipped from there to the [>] that ends the match. *)
Fixpoint sanitize_from (skipping : bool) (s : list ascii) : list ascii :=
  match s with
  | [] => []
  | c :: s' =>
      if skipping then
        if byte_in 62 62 c then sanitize_from false s'
        else sanitize_from true s'
      else if byte_in 60 60 c && tag_ahead s' then sanitize_from true s'
      else c :: sanitize_from false s'
  end.

Definition sanitize_html (text : string) : string :=
  string_of_list_ascii (sanitize_from false (list_ascii_of_string text)).

(** The bytes of a text. *)
Definition bytes (s : string) : list ascii := list_ascii_of_string s.

(** The first byte of a tag name that is a letter or digit other than
    [a], [b], [c], [i], [p], [u] in either case: no allowed name starts
    with it. *)
Definition plain_start (c : ascii) : bool :=
  (byte_in 48 57 c || byte_in 65 90 c || byte_in 97 122 c)
  && negb (existsb (Ascii.eqb (ascii_fold c))
             ["a"; "b"; "c"; "i"; "p"; "u"]%char).

(** The first byte of a tag name that is [a], [b], [i] or [u] in either
    case: an allowed name matches there. *)
Definition allowed_start (c : ascii) : bool :=
  existsb (Ascii.eqb (ascii_fold c)) ["a"; "b"; "i"; "u"]%char.

(** ** bot.py: the handlers

    A handler is a function of the stores [user_languages] and
    [user_stats] and of what it reads in the update (the user, the text or
    the callback data).  What it sends is the list of its calls of the
    Telegram interface; a text taken from [TRANSLATIONS] is named by its
    language and key, not copied.  A handler that raises returns [Raise];
    the calls made before are then left out. *)

(** The entries of a language of [TRANSLATIONS] that the handlers compare
    texts with: the labels of the menu buttons. *)
Record menu_labels : Type := {
  btn_send_audio : string;
  btn_stats : string;
  btn_tips : string;
  btn_settings : string;
  btn_help : string
}.

Definition TRANSLATIONS : gmap string menu_labels :=
  {[ "ru"%string :=
       {| btn_send_audio := "🎙 Отправить аудио";
       btn_stats := "📊 Моя статистика";
       btn_tips := "💡 Советы";
       btn_settings := "⚙️ Настройки";
       btn_help := "❓ Помощь" |};
     "en"%string :=
       {| btn_send_audio := "🎙 Send Audio";
       btn_stats := "📊 My Stats";
       btn_tips := "💡 Tips";
       btn_settings := "⚙️ Settings";
       btn_help := "❓ Help" |} ]}%string.

(** [TRANSLATIONS[lang]] *)
Definition translations (lang : string) : result menu_labels :=
  match TRANSLATIONS !! lang with
  | Some t => Ok t
  | None => Raise KeyError
  end.

(** [user_languages.get(user_id, 'en')] *)
Definition user_language (user_languages : gmap Z string) (user_id : Z) : string :=
  default "en"%string (user_languages !! user_id).

Inductive message : Type :=
  (** [TRANSLATIONS[lang][key]] *)
  | entry (lang key : string)
  (** [TRANSLATIONS[lang][key1] + TRANSLATIONS[lang][key2]] *)
  | entries (lang key1 key2 : string)
  (** a text written in the handler, in its Russian or English version *)
  | written (name : string) (russian : bool)
  (** the statistics: the entries [stats_title], [total_analyses],
      [avg_wpm], [avg_fillers], [last_analysis] of the language filled with
      the values, and a line for each numbered entry of the history *)
  | statistics (lang : string) (total : Z) (avg_wpm avg_fillers : Q)
      (last_date : option string) (progress : list (Z * history_entry)).

Inductive action : Type :=
  (** [update.message.reply_text(m, reply_markup=get_main_keyboard(lang))] *)
  | reply_text (m : message) (keyboard_lang : string)
  (** [update.message.reply_text(m)], without keyboard or with the inline
      buttons of the callback data [buttons] *)
  | reply_inline (m : message) (buttons : list string)
  (** [query.edit_message_text(m)], with the inline buttons [buttons] *)
  | edit_message_text (m : message) (buttons : list string)
  (** [context.bot.send_message(chat_id, m,
      reply_markup=get_main_keyboard(lang))] *)
  | send_message (chat_id : Z) (m : message) (keyboard_lang : string).

(** [enumerate(l, 1)] *)
Definition enumerate_from {A : Type} (start : Z) (l : list A) : list (Z * A) :=
  imap (fun i x => (start + Z.of_nat i, x)%Z) l.

Definition help_handler (user_languages : gmap Z string) (user_id : Z)
    : result (list action) :=
  let lang := user_language user_languages user_id in
  t ← translations lang;
  Ok [reply_text (entry lang "help_text") lang].

Definition stats_handler (user_languages : gmap Z string)
    (user_stats : gmap Z user_record) (user_id : Z) : result (list action) :=
  let lang := user_language user_languages user_id in
  t ← translations lang;
  match user_stats !! user_id with
  | None => Ok [reply_text (entry lang "stats_empty") lang]
  | Some stats =>
      if (total_analyses stats =? 0)%Z then
        Ok [reply_text (entry lang "stats_empty") lang]
      else
        q_wpm ← py_div (total_wpm stats) (inject_Z (total_analyses stats));
        let avg_wpm := py_round q_wpm 1 in
        q_fillers ← py_div (inject_Z (total_fillers stats))
                           (inject_Z (total_analyses stats));
        let avg_fillers := py_round q_fillers 1 in
        let progress := enumerate_from 1 (last_n 5 (analyses_history stats)) in
        Ok [reply_text
              (statistics lang (total_analyses stats) avg_wpm avg_fillers
                 (last_analysis_date stats) progress)
              lang]
  end.

Definition tips_handler (user_languages : gmap Z string) (user_id : Z)
    : result (list action) :=
  let lang := user_language user_languages user_id in
  t ← translations lang;
  Ok [reply_text (entries lang "tips_title" "tips_content") lang].

Definition settings_handler (user_languages : gmap Z string) (user_id : Z)
    : result (list action) :=
  let lang := user_language user_languages user_id in
  t ← translations lang;
  Ok [reply_inline (entry lang "settings_title") ["change_lang"; "back_to_menu"]].

Definition text_menu_handler (user_languages : gmap Z string)
    (user_stats : gmap Z user_record) (user_id : Z) (text : string)
    : result (list action) :=
  let lang := user_language user_languages user_id in
  t ← translations lang;
  if String.eqb text (btn_help t) || String.eqb text "❓ Help"
     || String.eqb text "❓ Помощь" then
    help_handler user_languages user_id
  else if String.eqb text (btn_stats t) || String.eqb text "📊 My Stats"
          || String.eqb text "📊 Моя статистика" then
    stats_handler user_languages user_stats user_id
  else if String.eqb text (btn_tips t) || String.eqb text "💡 Tips"
          || String.eqb text "💡 Советы" then
    tips_handler user_languages user_id
  else if String.eqb text (btn_settings t) || String.eqb text "⚙️ Settings"
          || String.eqb text "⚙️ Настройки" then
    settings_handler user_languages user_id
  else if String.eqb text (btn_send_audio t) || String.eqb text "🎙 Send Audio"
          || String.eqb text "🎙 Отправить аудио" then
    Ok [reply_inline (written "ready_to_analyze" (negb (String.eqb lang "en"))) []]
  else Ok [].

(** [s.split(sep)] for a separator of one character: the pieces between
    the separators, [cur] being the piece read so far, last character
    first. *)
Fixpoint split_from (sep : ascii) (cur s : list ascii) : list string :=
  match s with
  | [] => [string_of_list_ascii (rev cur)]
  | c :: s' =>
      if Ascii.eqb c sep then string_of_list_ascii (rev cur) :: split_from sep [] s'
      else split_from sep (c :: cur) s'
  end.

Definition py_split (sep : ascii) (s : string) : list string :=
  split_from sep [] (list_ascii_of_string s).

(** [l[i]] *)
Definition index {A : Type} (l : list A) (i : nat) : result A :=
  match l !! i with
  | Some x => Ok x
  | None => Raise IndexError
  end.

(** [language_callback] returns [user_languages] as it leaves it, also when
    it raises. *)
Definition language_callback (user_languages : gmap Z string) (user_id : Z)
    (data : string) : gmap Z string * result (list action) :=
  if String.eqb data "change_lang" then
    (user_languages,
     Ok [edit_message_text (written "choose_language" false) ["lang_ru"; "lang_en"]])
  else if String.prefix "lang_" data then
    match index (py_split "_" data) 1 with
    | Raise e => (user_languages, Raise e)
    | Ok selected_lang =>
        let user_languages := <[user_id := selected_lang]> user_languages in
        (user_languages,
         t ← translations selected_lang;
         Ok [edit_message_text (entry selected_lang "language_selected") [];
             send_message user_id
               (written "how_to_start" (String.eqb selected_lang "ru"))
               selected_lang])
    end
  else if String.eqb data "back_to_menu" then
    let lang := user_language user_languages user_id in
    (user_languages,
     t ← translations lang;
     Ok [edit_message_text (entry lang "main_menu") []])
  else (user_languages, Ok []).

(** ** Sample users and texts *)

(** An analysis of one minute of speech at [w] words per minute with [f]
    fillers. *)
Definition sample_analysis (w : Q) (f : Z) : speech_analysis :=
  {| duration_sec := 60;
     word_count := Qfloor w;
     words_per_minute := w;
     tempo_rating := "optimal"%string;
     short_pauses := 0;
     long_pauses := 0;
     fillers_count := f;
     filler_details := ∅;
     prosody := {| pitch_mean := 0;
                   pitch_variance := 0;
                   monotony := "high (monotonous)"%string;
                   energy_variance := 0;
                   energy_mean := 0;
                   energy_rating := "flat (almost no volume changes)"%string |} |}.

(** A user whose history is full: ten analyses, at 100 to 109 words per
    minute. *)
Definition ten_entries : list history_entry :=
  map (fun i => summary "2025-01-01 10:00" (sample_analysis (inject_Z (100 + i)) i))
      (seqZ 0 10).

Definition regular_user : user_record :=
  {| total_analyses := 10;
     total_wpm := 1045;
     total_fillers := 45;
     last_analysis_date := Some "2025-01-01 10:00"%string;
     analyses_history := ten_entries |}.

(** Three analyses, the first and the last of user 7. *)
Definition three_calls : list (string * Z * speech_analysis) :=
  [("2025-01-01 10:00"%string, 7%Z, sample_analysis 130 2);
   ("2025-01-01 11:00"%string, 8%Z, sample_analysis 90 0);
   ("2025-01-02 09:00"%string, 7%Z, sample_analysis 141 5)].

(** A tag body with a line feed in it. *)
Definition two_lines : string :=
  String "s" (String (ascii_of_N 10) "x").

(** * Properties *)

(** ** Comparisons, sums and rounding *)

Lemma Qleb_iff (x y : Q) : Qleb x y = true <-> x <= y.
Proof. apply Qle_bool_iff. Qed.

Lemma Qltb_iff (x y : Q) : Qltb x y = true <-> x < y.
Proof.
  unfold Qltb. rewrite negb_true_iff, <- not_true_iff_false, Qle_bool_iff.
  split; [apply Qnot_le_lt | apply Qlt_not_le].
Qed.

Lemma Qleb_false (x y : Q) : Qleb x y = false <-> y < x.
Proof.
  rewrite <- not_true_iff_false, Qleb_iff.
  split; [apply Qnot_le_lt | apply Qlt_not_le].
Qed.

Lemma Qltb_false (x y : Q) : Qltb x y = false <-> y <= x.
Proof.
  rewrite <- not_true_iff_false, Qltb_iff.
  split; [apply Qnot_lt_le | apply Qle_not_lt].
Qed.

Ltac Qbool :=
  repeat match goal with
  | H : Qleb _ _ = true |- _ => apply Qleb_iff in H
  | H : Qleb _ _ = false |- _ => apply Qleb_false in H
  | H : Qltb _ _ = true |- _ => apply Qltb_iff in H
  | H : Qltb _ _ = false |- _ => apply Qltb_false in H
  end.

Lemma foldl_add_shift (l : list Z) (a : Z) :
  foldl Z.add a l = (a + foldl Z.add 0 l)%Z.
Proof.
  revert a. induction l as [|x l IH]; intros a; simpl; [lia |].
  rewrite (IH (a + x)%Z), (IH (0 + x)%Z). lia.
Qed.

Lemma py_sum_cons (x : Z) (l : list Z) : py_sum (x :: l) = (x + py_sum l)%Z.
Proof. unfold py_sum. simpl. apply foldl_add_shift. Qed.

Lemma py_sum_foldr (l : list Z) : py_sum l = foldr Z.add 0%Z l.
Proof.
  induction l as [|x l IH]; [done |]. rewrite py_sum_cons, IH. done.
Qed.

(** The generator expression [sum(1 for p in l if cond(p))] counts the
    entries that satisfy [cond]. *)
Lemma count_if_filter {A : Type} (P : A -> Prop) `{!forall x, Decision (P x)}
    (cond : A -> bool) (l : list A) :
  (forall x, cond x = true <-> P x) ->
  count_if cond l = len (filter P l).
Proof.
  intros Hc. unfold count_if, len.
  induction l as [|x l IH]; [done |].
  simpl. rewrite filter_cons.
  destruct (cond x) eqn:E.
  - rewrite decide_True by (by apply Hc).
    simpl. rewrite py_sum_cons, IH. lia.
  - rewrite decide_False; [done |].
    intros HP. apply Hc in HP. congruence.
Qed.

Lemma len_nonneg {A : Type} (l : list A) : (0 <= len l)%Z.
Proof. unfold len. lia. Qed.

Lemma round_half_even_nonneg (x : Q) : 0 <= x -> (0 <= round_half_even x)%Z.
Proof.
  intros Hx. unfold round_half_even.
  assert (0 <= Qfloor x)%Z.
  { rewrite <- (Qfloor_Z 0). by apply Qfloor_resp_le. }
  destruct (Qcompare _ _); [destruct (Z.even _) | |]; lia.
Qed.

Lemma py_round_nonneg (x : Q) (ndigits : Z) : 0 <= x -> 0 <= py_round x ndigits.
Proof.
  intros Hx. unfold py_round.
  assert (Hp : 0 < 10 ^ ndigits) by (by apply Qpower_0_lt).
  apply Qle_shift_div_l; [done |]. rewrite Qmult_0_l.
  change 0 with (inject_Z 0). rewrite <- Zle_Qle.
  apply round_half_even_nonneg.
  apply Qmult_le_0_compat; [done | by apply Qlt_le_weak].
Qed.

Lemma py_round_zero (x : Q) (ndigits : Z) : x == 0 -> py_round x ndigits == 0.
Proof.
  intros Hx. unfold py_round.
  assert (E : round_half_even (x * 10 ^ ndigits) = 0%Z).
  { unfold round_half_even.
    assert (E0 : x * 10 ^ ndigits == 0) by (rewrite Hx; ring).
    assert (F : Qfloor (x * 10 ^ ndigits) = 0%Z).
    { rewrite <- (Qfloor_Z 0). by apply Qfloor_comp. }
    rewrite F.
    assert (C : Qcompare (x * 10 ^ ndigits - inject_Z 0) (1 # 2) = Lt).
    { rewrite <- Qlt_alt. rewrite E0. reflexivity. }
    by rewrite C. }
  rewrite E. unfold Qdiv. ring.
Qed.

Lemma round_half_even_small (y : Q) :
  0 <= y -> y < 1 # 2 -> round_half_even y = 0%Z.
Proof.
  intros H0 H1. unfold round_half_even.
  pose proof (Qfloor_le y) as Hl. pose proof (Qlt_floor y) as Hu.
  rewrite inject_Z_plus in Hu. change (inject_Z 1) with 1 in Hu.
  assert (F : Qfloor y = 0%Z).
  { assert (Qfloor y < 1)%Z.
    { rewrite Zlt_Qlt. change (inject_Z 1) with 1. lra. }
    assert (-1 < Qfloor y)%Z.
    { rewrite Zlt_Qlt. change (inject_Z (-1)) with (-1). lra. }
    lia. }
  rewrite F.
  assert (C : Qcompare (y - inject_Z 0) (1 # 2) = Lt).
  { rewrite <- Qlt_alt. change (inject_Z 0) with 0. lra. }
  by rewrite C.
Qed.

Lemma round_half_even_zero_inv (y : Q) : round_half_even y = 0%Z -> y <= 1 # 2.
Proof.
  unfold round_half_even.
  pose proof (Qfloor_le y) as Hl. pose proof (Qlt_floor y) as Hu.
  rewrite inject_Z_plus in Hu. change (inject_Z 1) with 1 in Hu.
  destruct (Qcompare _ _) eqn:C.
  - apply Qeq_alt in C. destruct (Z.even _); intros E.
    + rewrite E in C. change (inject_Z 0) with 0 in C. lra.
    + assert (F : Qfloor y = (-1)%Z) by lia.
      rewrite F in Hu. change (inject_Z (-1)) with (-1) in Hu. lra.
  - apply Qlt_alt in C. intros E. rewrite E in C.
    change (inject_Z 0) with 0 in C. lra.
  - intros E. assert (F : Qfloor y = (-1)%Z) by lia.
    rewrite F in Hu. change (inject_Z (-1)) with (-1) in Hu. lra.
Qed.

(** Rounding to one decimal gives 0 below 0.05, and only up to 0.05. *)
Lemma py_round_small (x : Q) : 0 <= x -> x < 0.05 -> py_round x 1 == 0.
Proof.
  intros H0 H1. unfold py_round. change (10 ^ 1) with 10.
  rewrite round_half_even_small; [reflexivity | lra | lra].
Qed.

Lemma py_round_zero_inv (x : Q) : py_round x 1 == 0 -> x <= 0.05.
Proof.
  unfold py_round. change (10 ^ 1) with 10. intros E.
  assert (F : round_half_even (x * 10) = 0%Z).
  { assert (E' : inject_Z (round_half_even (x * 10)) == 0).
    { assert (E2 : inject_Z (round_half_even (x * 10))
                   == inject_Z (round_half_even (x * 10)) / 10 * 10) by field.
      rewrite E2, E. reflexivity. }
    apply inject_Z_injective. exact E'. }
  apply round_half_even_zero_inv in F. lra.
Qed.

Lemma py_div_Ok (a b : Q) : ~ b == 0 -> py_div a b = Ok (a / b).
Proof.
  intros Hb. unfold py_div. destruct (Qeq_bool b 0) eqn:E; [| done].
  by apply Qeq_bool_iff in E.
Qed.

Lemma py_div_zero (a b : Q) : b == 0 -> py_div a b = Raise ZeroDivisionError.
Proof.
  intros Hb. unfold py_div. apply Qeq_bool_iff in Hb. by rewrite Hb.
Qed.

(** ** Filler words ([count_fillers]) *)

Lemma py_sum_values (d : gmap string Z) : py_sum (values d) = breakdown_sum d.
Proof.
  unfold values, breakdown_sum. rewrite map_fold_foldr, py_sum_foldr.
  induction (map_to_list d) as [|[k v] l IH]; [done |].
  rewrite fmap_cons. simpl. by rewrite IH.
Qed.

Lemma breakdown_sum_incr (w : string) (d : gmap string Z) :
  breakdown_sum (incr w d) = (breakdown_sum d + 1)%Z.
Proof.
  unfold incr, breakdown_sum.
  destruct (d !! w) as [c|] eqn:E; simpl.
  - rewrite <- insert_delete_eq.
    rewrite map_fold_insert_L; [| intros; lia | apply lookup_delete_eq].
    rewrite (map_fold_delete_L _ _ w c d); [lia | intros; lia | done].
  - rewrite map_fold_insert_L; [lia | intros; lia | done].
Qed.

Section Fillers.

Context `{Externals}.

(** C2: for every transcript and language code (['ru'] selects the Russian
    vocabulary, every other code, ['en'] among them, the English one), the
    total that [count_fillers] returns is the sum of the per-token counts
    of the breakdown it returns. *)
Theorem count_fillers_total_is_breakdown_sum (text lang : string) :
  (count_fillers text lang).1 = breakdown_sum (count_fillers text lang).2.
Proof. unfold count_fillers. simpl. apply py_sum_values. Qed.

Lemma fillers_loop_sum (fillers : gset string) (words : list string)
    (d : gmap string Z) :
  breakdown_sum
    (foldl (fun d w => if decide (w ∈ fillers) then incr w d else d) d words)
  = (breakdown_sum d + len (filter (fun w => w ∈ fillers) words))%Z.
Proof.
  revert d. induction words as [|w words IH]; intros d; simpl.
  - unfold len. simpl. lia.
  - rewrite IH, filter_cons. destruct (decide (w ∈ fillers)).
    + rewrite breakdown_sum_incr. unfold len. simpl. lia.
    + done.
Qed.

(** The total is also the number of tokens of the lower-cased transcript
    that belong to the vocabulary. *)
Lemma count_fillers_total_is_token_count (text lang : string) :
  (count_fillers text lang).1
  = len (filter (fun w => w ∈ vocabulary lang)
                (re_findall_words (str_lower text))).
Proof.
  unfold count_fillers. simpl.
  rewrite py_sum_values, fillers_loop_sum. unfold breakdown_sum. rewrite map_fold_empty.
  reflexivity.
Qed.

End Fillers.

(** ** Tempo and pause buckets ([analyze_speech]) *)

Ltac analysis_of H rate Hrate ps Hps :=
  unfold analyze_speech in H;
  destruct (speech_wpm _ _) as [rate|?] eqn:Hrate; simpl in H; [| discriminate H];
  destruct (detect_pauses _ _) as [ps|?] eqn:Hps; simpl in H; [| discriminate H];
  injection H as <-; simpl.

Section Speech.

Context `{Externals}.

(** The words per minute are computed without error: the two divisions
    are made for a positive duration only. *)
Lemma speech_wpm_Ok (audio_path text : string) :
  let duration := speech_duration audio_path in
  let words := re_findall_words text in
  exists wpm,
    speech_wpm audio_path text = Ok wpm /\
    0 <= wpm /\
    (0 < duration -> wpm = inject_Z (len words) / (duration / 60)) /\
    (~ 0 < duration -> wpm = 0).
Proof.
  intros duration words. unfold speech_wpm. fold duration words.
  destruct (Qltb 0 duration) eqn:E; Qbool.
  - assert (Hm : 0 < duration / 60).
    { apply Qlt_shift_div_l; [reflexivity |]. by rewrite Qmult_0_l. }
    rewrite (py_div_Ok duration 60) by discriminate. simpl.
    rewrite py_div_Ok by (intros E0; rewrite E0 in Hm; discriminate Hm).
    eexists. split; [reflexivity |]. split; [| split; [done | done]].
    apply Qle_shift_div_l; [done |]. rewrite Qmult_0_l.
    change 0 with (inject_Z 0). rewrite <- Zle_Qle. apply len_nonneg.
  - exists 0. split; [done |]. split; [apply Qle_refl |].
    split; [intros Hd; exfalso; lra | done].
Qed.

(** C3: the tempo rating of [analyze_speech] is the "optimal" label
    exactly when the computed words-per-minute value is between 120 and
    150, bounds included, the "slow" label exactly when it is below 120 and
    the "fast" label exactly when it is above 150. *)
Theorem tempo_rating_thresholds (audio_path text lang : string)
    (r : speech_analysis) :
  analyze_speech audio_path text lang = Ok r ->
  exists wpm,
    speech_wpm audio_path text = Ok wpm /\
    (tempo_rating r = tempo_label lang OptimalTempo <-> 120 <= wpm /\ wpm <= 150) /\
    (tempo_rating r = tempo_label lang TooSlow <-> wpm < 120) /\
    (tempo_rating r = tempo_label lang TooFast <-> 150 < wpm).
Proof.
  intros Hr. analysis_of Hr rate Hrate ps Hps.
  exists rate. split; [done |].
  unfold tempo_label, OPTIMAL_WPM_MIN, OPTIMAL_WPM_MAX.
  destruct (String.eqb lang "en");
    destruct (Qleb 120 rate) eqn:E1; destruct (Qleb rate 150) eqn:E2;
    destruct (Qltb rate 120) eqn:E3; simpl; Qbool;
    (repeat split; intros; try discriminate; try lra).
Qed.

(** C4: [analyze_speech] counts as short the pauses of [detect_pauses]
    whose duration is between 0.3 and 1.0 seconds, bounds included, and as
    long those above 1.5 seconds; a duration strictly between 1.0 and 1.5
    seconds enters neither count. *)
Theorem pause_buckets (audio_path text lang : string) (r : speech_analysis) :
  analyze_speech audio_path text lang = Ok r ->
  exists ps : list Q,
    detect_pauses (librosa_load audio_path) 16000 = Ok ps /\
    short_pauses r = len (filter (fun d : Q => (0.3 <= d /\ d <= 1.0)%Q) ps) /\
    long_pauses r = len (filter (fun d : Q => (1.5 < d)%Q) ps) /\
    (short_pauses r + long_pauses r
     + len (filter (fun d : Q => (1.0 < d /\ d < 1.5)%Q) ps) <= len ps)%Z.
Proof.
  intros Hr. analysis_of Hr rate Hrate ps Hps.
  exists ps. split; [done |].
  assert (Hs : count_if (fun p => Qleb 0.3 p && Qleb p 1.0) ps
               = len (filter (fun d : Q => (0.3 <= d /\ d <= 1.0)%Q) ps)).
  { apply count_if_filter. intros d.
    rewrite andb_true_iff, !Qleb_iff. done. }
  assert (Hl : count_if (fun p => Qltb 1.5 p) ps
               = len (filter (fun d : Q => (1.5 < d)%Q) ps)).
  { apply count_if_filter. intros d. apply Qltb_iff. }
  rewrite Hs, Hl. repeat split.
  unfold len. clear. induction ps as [|d ps IH]; [done |].
  rewrite !filter_cons.
  destruct (decide (0.3 <= d /\ d <= 1.0)%Q) as [[? ?]|?];
    destruct (decide (1.5 < d)%Q); destruct (decide (1.0 < d /\ d < 1.5)%Q) as [[? ?]|?];
    simpl; try lia; lra.
Qed.

End Speech.

(** ** The silence threshold ([np.percentile], [np.where]) *)

Lemma insert_sorted_perm (x : Q) (l : list Q) : np.insert_sorted x l ≡ₚ x :: l.
Proof.
  induction l as [|y l IH]; simpl; [done |].
  destruct (Qleb x y); [done |]. rewrite IH. apply Permutation_swap.
Qed.

Lemma sort_perm (l : list Q) : np.sort l ≡ₚ l.
Proof.
  induction l as [|x l IH]; simpl; [done |].
  rewrite insert_sorted_perm. by constructor.
Qed.

Lemma sort_length (l : list Q) : length (np.sort l) = length l.
Proof. apply Permutation_length, sort_perm. Qed.

Lemma insert_sorted_sorted (x : Q) (l : list Q) :
  StronglySorted Qle l -> StronglySorted Qle (np.insert_sorted x l).
Proof.
  induction l as [|y l IH]; simpl; intros Hl.
  - repeat constructor.
  - apply StronglySorted_cons in Hl as [Hy Hl].
    destruct (Qleb x y) eqn:E; Qbool.
    + apply StronglySorted_cons. split; [| by apply StronglySorted_cons].
      constructor; [done |].
      eapply Forall_impl; [exact Hy |]. intros z Hz. by eapply Qle_trans.
    + apply StronglySorted_cons. split; [| by apply IH].
      rewrite insert_sorted_perm. constructor; [by apply Qlt_le_weak | done].
Qed.

Lemma sort_sorted (l : list Q) : StronglySorted Qle (np.sort l).
Proof.
  induction l as [|x l IH]; simpl; [constructor | by apply insert_sorted_sorted].
Qed.

Lemma sorted_nth_le (s : list Q) (i j : nat) :
  StronglySorted Qle s -> (i <= j)%nat -> (j < length s)%nat ->
  nth i s 0 <= nth j s 0.
Proof.
  revert i j. induction s as [|x s IH]; intros i j Hs Hij Hj; simpl in Hj; [lia |].
  apply StronglySorted_cons in Hs as [Hx Hs].
  destruct i as [|i], j as [|j]; simpl; try lia.
  - apply Qle_refl.
  - rewrite Forall_forall in Hx. apply Hx, list_elem_of_In, nth_In. lia.
  - apply IH; [done | lia | lia].
Qed.

Lemma filter_lt_none (t : Q) (l : list Q) :
  Forall (fun x => t <= x) l -> filter (fun x : Q => (x < t)%Q) l = [].
Proof.
  induction 1 as [|x l Hx _ IH]; [done |].
  rewrite filter_cons, decide_False; [done | by apply Qle_not_lt].
Qed.

(** In a sorted array the entries below [t] come before every index whose
    entry is at least [t]. *)
Lemma filter_lt_sorted (s : list Q) (k : nat) (t : Q) :
  StronglySorted Qle s -> (k < length s)%nat -> t <= nth k s 0 ->
  (length (filter (fun x : Q => (x < t)%Q) s) <= k)%nat.
Proof.
  revert k. induction s as [|x s IH]; intros k Hs Hk Ht; simpl in Hk; [lia |].
  pose proof Hs as Hs'. apply StronglySorted_cons in Hs' as [Hx Hs'].
  destruct k as [|k]; simpl in Ht.
  - rewrite filter_lt_none; [done |].
    constructor; [done |].
    eapply Forall_impl; [exact Hx |]. intros z Hz. by eapply Qle_trans.
  - rewrite filter_cons. specialize (IH k Hs' ltac:(lia) Ht).
    destruct (decide (x < t)); simpl; lia.
Qed.

Lemma where_lt_from_length (i : Z) (a : list Q) (t : Q) :
  length (np.where_lt_from i a t) = length (filter (fun x : Q => (x < t)%Q) a).
Proof.
  revert i. induction a as [|e a IH]; intros i; simpl; [done |].
  rewrite filter_cons. destruct (Qltb e t) eqn:E; Qbool.
  - rewrite decide_True by done. simpl. by rewrite IH.
  - rewrite decide_False by (by apply Qle_not_lt). apply IH.
Qed.

(** The two indices [np.percentile] interpolates between lie inside the
    array, and the weight of the upper one is in $[0,1)$. *)
Lemma percentile_indices (n : Z) (q : Q) :
  (1 <= n)%Z -> 0 <= q -> q <= 100 ->
  let pos := q / 100 * inject_Z (n - 1) in
  let lo := Qfloor pos in
  let hi := Z.min (lo + 1) (n - 1) in
  (0 <= lo)%Z /\ (lo <= hi)%Z /\ (hi <= n - 1)%Z /\
  0 <= pos - inject_Z lo /\ pos - inject_Z lo < 1.
Proof.
  intros Hn Hq0 Hq1 pos lo hi.
  assert (Hn' : 0 <= inject_Z (n - 1)).
  { change 0 with (inject_Z 0). rewrite <- Zle_Qle. lia. }
  assert (Hpos0 : 0 <= pos).
  { unfold pos. apply Qmult_le_0_compat; [| done].
    apply Qle_shift_div_l; [reflexivity | lra]. }
  assert (Hpos1 : pos <= inject_Z (n - 1)).
  { unfold pos. rewrite <- (Qmult_1_l (inject_Z (n - 1))) at 2.
    apply Qmult_le_compat_r; [| done].
    apply Qle_shift_div_r; [reflexivity | lra]. }
  assert (Hlo0 : (0 <= lo)%Z).
  { unfold lo. rewrite <- (Qfloor_Z 0). by apply Qfloor_resp_le. }
  assert (Hlo1 : (lo <= n - 1)%Z).
  { unfold lo. rewrite <- (Qfloor_Z (n - 1)). by apply Qfloor_resp_le. }
  pose proof (Qfloor_le pos) as Hf. pose proof (Qlt_floor pos) as Hc.
  fold lo in Hf, Hc. rewrite inject_Z_plus in Hc.
  change (inject_Z 1) with 1 in Hc.
  split; [done |]. split; [unfold hi; lia |]. split; [unfold hi; lia |].
  clearbody lo. clearbody pos. split; lra.
Qed.

Lemma percentile_Ok (a : list Q) (q t : Q) :
  np.percentile a q = Ok t -> a <> [] /\ np.interpolate (np.sort a) q = t.
Proof. destruct a; [discriminate |]. intros [= <-]. done. Qed.

Lemma percentile_nonempty (a : list Q) (q : Q) :
  a <> [] -> np.percentile a q = Ok (np.interpolate (np.sort a) q).
Proof. by destruct a. Qed.

(** The threshold is at most the upper of the two entries, so fewer
    entries than its index are strictly below it. *)
Lemma percentile_below (a : list Q) (q t : Q) :
  0 <= q -> q <= 100 -> np.percentile a q = Ok t ->
  (len (filter (fun x : Q => (x < t)%Q) a)
   <= Z.min (Qfloor (q / 100 * inject_Z (len a - 1)) + 1) (len a - 1))%Z.
Proof.
  intros Hq0 Hq1 Ht.
  apply percentile_Ok in Ht as [Hne Ht].
  set (l := a) in *. set (s := np.sort l) in *.
  assert (Hlen : len s = len l) by (unfold len, s; by rewrite sort_length).
  unfold np.interpolate in Ht. rewrite Hlen in Ht.
  assert (Hn : (1 <= len l)%Z).
  { unfold len. destruct l; [done | simpl; lia]. }
  destruct (percentile_indices (len l) q Hn Hq0 Hq1) as (Hlo & Hlh & Hhi & Hg0 & Hg1).
  set (pos := q / 100 * inject_Z (len l - 1)) in *.
  set (lo := Qfloor pos) in *. set (hi := Z.min (lo + 1) (len l - 1)) in *.
  assert (Hs : StronglySorted Qle s) by apply sort_sorted.
  assert (Hhi' : (Z.to_nat hi < length s)%nat).
  { unfold s. rewrite sort_length. unfold len in Hhi. lia. }
  assert (Hle : nth (Z.to_nat lo) s 0 <= nth (Z.to_nat hi) s 0).
  { apply sorted_nth_le; [done | lia | done]. }
  assert (Hthi : t <= nth (Z.to_nat hi) s 0).
  { rewrite <- Ht.
    set (u := nth (Z.to_nat lo) s 0) in *. set (v := nth (Z.to_nat hi) s 0) in *.
    set (g := pos - inject_Z lo) in *.
    assert (0 <= (v - u) * (1 - g)) by (apply Qmult_le_0_compat; lra).
    lra. }
  assert (Hperm : filter (fun x : Q => (x < t)%Q) l ≡ₚ filter (fun x : Q => (x < t)%Q) s).
  { apply filter_Permutation. symmetry. apply sort_perm. }
  unfold len at 1. rewrite (Permutation_length Hperm).
  pose proof (filter_lt_sorted s (Z.to_nat hi) t Hs Hhi' Hthi). lia.
Qed.

(** When all entries are equal the threshold is their common value. *)
Lemma percentile_constant (a : list Q) (q e t : Q) :
  0 <= q -> q <= 100 -> Forall (fun x => x == e) a ->
  np.percentile a q = Ok t -> t == e.
Proof.
  intros Hq0 Hq1 Ha Ht.
  apply percentile_Ok in Ht as [Hne Ht].
  set (l := a) in *. set (s := np.sort l) in *.
  assert (Hlen : len s = len l) by (unfold len, s; by rewrite sort_length).
  unfold np.interpolate in Ht. rewrite Hlen in Ht.
  assert (Hn : (1 <= len l)%Z).
  { unfold len. destruct l; [done | simpl; lia]. }
  destruct (percentile_indices (len l) q Hn Hq0 Hq1) as (Hlo & Hlh & Hhi & Hg0 & Hg1).
  assert (Hs : Forall (fun x => x == e) s).
  { unfold s. by rewrite sort_perm. }
  assert (Hnth : forall i, (i < length s)%nat -> nth i s 0 == e).
  { intros i Hi. rewrite Forall_forall in Hs.
    apply Hs, list_elem_of_In, nth_In, Hi. }
  assert (Hl : length s = length l) by apply sort_length.
  unfold len in *.
  rewrite <- Ht, !Hnth by lia. ring.
Qed.

Lemma where_lt_from_none (i : Z) (a : list Q) (t : Q) :
  Forall (fun x => t <= x) a -> np.where_lt_from i a t = [].
Proof.
  intros Ha. revert i. induction Ha as [|x a Hx _ IH]; intros i; simpl; [done |].
  assert (E : Qltb x t = false) by (by apply Qltb_false).
  rewrite E. apply IH.
Qed.

(** ** Runs of silent frames ([detect_pauses]) *)

Lemma where_lt_from_elem (base : Z) (a : list Q) (t : Q) (i : Z) :
  i ∈ np.where_lt_from base a t <->
  (base <= i)%Z /\ exists e, a !! Z.to_nat (i - base) = Some e /\ e < t.
Proof.
  revert base. induction a as [|x a IH]; intros base; simpl.
  { split; [by intros ?%elem_of_nil | by intros (_ & e & ? & _)]. }
  assert (Hstep : forall e, (base + 1 <= i)%Z ->
            (x :: a) !! Z.to_nat (i - base) = Some e <->
            a !! Z.to_nat (i - (base + 1)) = Some e).
  { intros e Hi.
    replace (Z.to_nat (i - base)) with (S (Z.to_nat (i - (base + 1)))) by lia.
    done. }
  destruct (Qltb x t) eqn:E; Qbool; [rewrite elem_of_cons |]; rewrite IH; split.
  - intros [-> | (Hb & e & Hl & He)].
    + split; [lia |]. exists x. by rewrite Z.sub_diag.
    + split; [lia |]. exists e. by rewrite Hstep.
  - intros (Hb & e & Hl & He).
    destruct (decide (i = base)) as [-> | Hne]; [by left | right].
    split; [lia |]. exists e. rewrite <- Hstep by lia. done.
  - intros (Hb & e & Hl & He). split; [lia |]. exists e. by rewrite Hstep.
  - intros (Hb & e & Hl & He).
    destruct (decide (i = base)) as [-> | Hne].
    + rewrite Z.sub_diag in Hl. simpl in Hl. injection Hl as ->.
      exfalso. by eapply Qle_not_lt.
    + split; [lia |]. exists e. rewrite <- Hstep by lia. done.
Qed.

Lemma where_lt_from_sorted (base : Z) (a : list Q) (t : Q) :
  StronglySorted Z.lt (np.where_lt_from base a t).
Proof.
  revert base. induction a as [|x a IH]; intros base; simpl; [constructor |].
  destruct (Qltb x t); [| apply IH].
  apply StronglySorted_cons. split; [| apply IH].
  apply Forall_forall. intros i Hi. apply where_lt_from_elem in Hi as [Hi _]. lia.
Qed.

(** [np.where(energy < t)[0]] lists the silent frames. *)
Lemma where_lt_silent (energy : list Q) (t : Q) (i : Z) :
  i ∈ np.where_lt energy t <-> silent energy t i.
Proof.
  unfold np.where_lt, silent. rewrite where_lt_from_elem, Z.sub_0_r. done.
Qed.

Section Loop.

Variable is_silent : Z -> Prop.
Variable frame_duration : Q.

Local Abbreviation measured := (measured is_silent frame_duration).
Local Abbreviation loop_inv := (loop_inv is_silent frame_duration).

Lemma loop_inv_step (st : pause_loop) (f : Z) (rest : list Z) :
  loop_inv st (f :: rest) -> loop_inv (pause_step frame_duration st f) rest.
Proof.
  intros (Hsp & Hrun & Hfirst & Hrest & Hsorted & Hps).
  apply StronglySorted_cons in Hsorted as [Hf Hsorted].
  rewrite Forall_forall in Hf.
  assert (Hf' : is_silent f /\ (prev st < f)%Z) by (apply Hrest; left).
  destruct Hf' as [Hfs Hfp].
  assert (Hgap : forall i, (prev st < i < f)%Z -> ~ is_silent i).
  { intros i Hi Hs.
    assert (Hin : i ∈ f :: rest) by (apply Hrest; split; [done | lia]).
    apply elem_of_cons in Hin as [-> | Hin]; [lia |].
    apply Hf in Hin. lia. }
  assert (Hrest' : forall i, i ∈ rest <-> is_silent i /\ (f < i)%Z).
  { intros i. split.
    - intros Hin. split; [| by apply Hf].
      apply (Hrest i). by right.
    - intros [Hs Hi].
      assert (Hin : i ∈ f :: rest) by (apply Hrest; split; [done | lia]).
      apply elem_of_cons in Hin as [-> | Hin]; [lia | done]. }
  unfold pause_step. destruct (1 <? f - prev st)%Z eqn:E.
  - apply Z.ltb_lt in E. unfold loop_inv. simpl.
    split; [lia |]. split; [intros i Hi; by replace i with f by lia |].
    split; [apply Hgap; lia |]. split; [done |]. split; [done |].
    destruct (Qltb 0.25 _) eqn:Ed; Qbool; [| done].
    apply Forall_app. split; [done |]. constructor; [| constructor].
    split; [done |]. exists (start st), (prev st).
    split; [done |]. split; [done |]. split; [done |].
    split; [apply Hgap; lia | done].
  - apply Z.ltb_ge in E. unfold loop_inv. simpl.
    split; [lia |]. split.
    { intros i Hi. destruct (decide (i = f)) as [-> | Hne]; [done |].
      apply Hrun. lia. }
    done.
Qed.

Lemma loop_inv_foldl (rest : list Z) (st : pause_loop) :
  loop_inv st rest -> loop_inv (foldl (pause_step frame_duration) st rest) [].
Proof.
  revert st. induction rest as [|f rest IH]; intros st Hinv; simpl; [done |].
  by apply IH, loop_inv_step.
Qed.

(** The pauses returned after the loop, the last run included. *)
Lemma loop_result (silence_frames : list Z) (f0 : Z) (rest : list Z) :
  silence_frames = f0 :: rest ->
  StronglySorted Z.lt silence_frames ->
  (forall i, i ∈ silence_frames <-> is_silent i) ->
  let st := foldl (pause_step frame_duration)
                  {| start := f0; prev := f0; pauses := [] |} rest in
  let duration := inject_Z (prev st - start st) * frame_duration in
  Forall measured
    (if Qltb 0.25 duration then pauses st ++ [duration] else pauses st).
Proof.
  intros -> Hsorted Hin st duration.
  pose proof Hsorted as Hs'. apply StronglySorted_cons in Hs' as [Hf Hs'].
  rewrite Forall_forall in Hf.
  assert (Hinit : loop_inv {| start := f0; prev := f0; pauses := [] |} rest).
  { unfold loop_inv. simpl. split; [lia |]. split.
    { intros i Hi. replace i with f0 by lia. apply Hin. by left. }
    split.
    { intros Hs. apply Hin in Hs.
      apply elem_of_cons in Hs as [? | Hs]; [lia |]. apply Hf in Hs. lia. }
    split; [| split; [done | constructor]].
    intros i. split.
    - intros Hi. split; [apply Hin; by right | by apply Hf].
    - intros [Hs Hi]. apply Hin in Hs.
      apply elem_of_cons in Hs as [-> | Hs]; [lia | done]. }
  apply loop_inv_foldl in Hinit. fold st in Hinit.
  destruct Hinit as (Hsp & Hrun & Hfirst & Hrest & _ & Hps).
  destruct (Qltb 0.25 duration) eqn:Ed; Qbool; [| done].
  apply Forall_app. split; [done |]. constructor; [| constructor].
  split; [done |]. exists (start st), (prev st).
  split; [done |]. split; [done |]. split; [done |]. split; [| done].
  intros Hs.
  assert (Hn : (prev st + 1)%Z ∈ @nil Z) by (apply Hrest; split; [done | lia]).
  by apply elem_of_nil in Hn.
Qed.

End Loop.

Section Pauses.

Context `{Externals}.

Lemma sr_nonzero (sr : Q) : ~ sr == 0 -> Qeq_bool sr 0 = false.
Proof.
  intros Hsr. destruct (Qeq_bool sr 0) eqn:E; [| done].
  by apply Qeq_bool_eq in E.
Qed.

(** [detect_pauses] returns as soon as librosa hands it at least one frame
    and the sample rate is not zero. *)
Lemma detect_pauses_total (y : list Q) (sr : Q) :
  ~ sr == 0 -> librosa_feature_rms y 2048 512 <> [] ->
  exists ps, detect_pauses y sr = Ok ps.
Proof.
  intros Hsr Hne. unfold detect_pauses.
  rewrite (sr_nonzero sr Hsr), (percentile_nonempty _ _ Hne). simpl.
  destruct (np.where_lt _ _); eauto.
Qed.

(** Frames of equal energy: none is below the threshold. *)
Lemma detect_pauses_constant (y : list Q) (sr e : Q) :
  ~ sr == 0 -> librosa_feature_rms y 2048 512 <> [] ->
  Forall (fun x => x == e) (librosa_feature_rms y 2048 512) ->
  np.where_lt (librosa_feature_rms y 2048 512)
              (np.interpolate (np.sort (librosa_feature_rms y 2048 512)) 15) = []
  /\ detect_pauses y sr = Ok [].
Proof.
  intros Hsr Hne He.
  set (energy := librosa_feature_rms y 2048 512) in *.
  set (t := np.interpolate (np.sort energy) 15).
  assert (Ht : t == e).
  { apply (percentile_constant energy 15 e t); [lra | lra | done |].
    by apply percentile_nonempty. }
  assert (Hw : np.where_lt energy t = []).
  { apply where_lt_from_none. eapply Forall_impl; [exact He |].
    intros x Hx. simpl in Hx. rewrite Ht, Hx. apply Qle_refl. }
  split; [done |]. unfold detect_pauses. fold energy.
  rewrite (sr_nonzero sr Hsr), (percentile_nonempty _ _ Hne). simpl.
  fold t. by rewrite Hw.
Qed.

(** C5, as the code has it: every duration [detect_pauses] returns is
    above 0.25 seconds and is measured on a maximal run of consecutive
    silent frames, from its first frame to its last one: it equals
    [(run_length - 1) * hop / sr], one hop less than the number of frames
    of the run times the hop. *)
Theorem pause_durations (y : list Q) (sr : Q) (ps : list Q) :
  detect_pauses y sr = Ok ps ->
  let energy := librosa_feature_rms y 2048 512 in
  exists t,
    np.percentile energy 15 = Ok t /\
    forall d, d ∈ ps ->
      0.25 < d /\
      exists first last : Z,
        maximal_silent_run energy t first last /\
        d == inject_Z ((run_length first last - 1) * 512) / sr.
Proof.
  intros Hps energy. unfold detect_pauses in Hps. fold energy in Hps.
  destruct (Qeq_bool sr 0); [discriminate |].
  destruct (np.percentile energy 15) as [t|] eqn:Ht; [| discriminate].
  simpl in Hps. exists t. split; [done |].
  destruct (np.where_lt energy t) as [|f0 rest] eqn:Hsf.
  { injection Hps as <-. by intros d ?%elem_of_nil. }
  injection Hps as <-.
  pose proof (loop_result (silent energy t) (inject_Z 512 / sr)
                (np.where_lt energy t) f0 rest Hsf
                (where_lt_from_sorted 0 energy t)
                (where_lt_silent energy t)) as Hall.
  simpl in Hall. rewrite Forall_forall in Hall.
  intros d Hd. apply Hall in Hd as [Hd (first & last & Hfl & Hrun & Hb & Ha & ->)].
  split; [done |]. exists first, last. split; [done |].
  unfold run_length.
  replace (last - first + 1 - 1)%Z with (last - first)%Z by lia.
  rewrite inject_Z_mult. unfold Qdiv. ring.
Qed.

(** C6: on librosa's frame grid (a frame every 512 samples, one more than
    whole hops in the waveform) and at a sample rate that is not zero,
    [detect_pauses] returns a list for every waveform, and the empty list
    for the empty waveform. *)
Theorem detect_pauses_never_raises (sr : Q) :
  (forall y, length (librosa_feature_rms y 2048 512) = S (length y / 512)) ->
  ~ sr == 0 ->
  (forall y, exists ps, detect_pauses y sr = Ok ps) /\
  detect_pauses [] sr = Ok [].
Proof.
  intros Hgrid Hsr.
  assert (Hne : forall y, librosa_feature_rms y 2048 512 <> []).
  { intros y Hy. specialize (Hgrid y). rewrite Hy in Hgrid. discriminate. }
  split; [intros y; by apply detect_pauses_total |].
  pose proof (Hgrid []) as Hlen.
  destruct (librosa_feature_rms [] 2048 512) as [|e [|? ?]] eqn:He;
    try discriminate.
  apply (detect_pauses_constant [] sr e); [done | by rewrite He |].
  rewrite He. by repeat constructor.
Qed.

(** C7, as the code has it: a frame is silent only when its energy is
    strictly below the 15th percentile, so at most
    [floor(0.15 * (n - 1)) + 1] of the [n] frames, and never all of them,
    are silent; when all frames have the same energy, as in an entirely
    silent recording, no frame is silent and [detect_pauses] returns the
    empty list. *)
Theorem silent_frames_below_percentile (y : list Q) (sr : Q) :
  ~ sr == 0 ->
  let energy := librosa_feature_rms y 2048 512 in
  energy <> [] ->
  exists t,
    np.percentile energy 15 = Ok t /\
    (len (np.where_lt energy t)
     <= Z.min (Qfloor (15 / 100 * inject_Z (len energy - 1)) + 1)
              (len energy - 1))%Z /\
    forall e, Forall (fun x => x == e) energy ->
      np.where_lt energy t = [] /\ detect_pauses y sr = Ok [].
Proof.
  intros Hsr energy Hne.
  exists (np.interpolate (np.sort energy) 15).
  split; [by apply percentile_nonempty |]. split.
  - unfold np.where_lt, len at 1. rewrite where_lt_from_length.
    apply (percentile_below energy 15); [lra | lra |].
    by apply percentile_nonempty.
  - intros e He. by apply (detect_pauses_constant y sr e).
Qed.

End Pauses.

(** ** The metrics record ([analyze_speech]) *)

Lemma count_if_nonneg {A : Type} (cond : A -> bool) (l : list A) :
  (0 <= count_if cond l)%Z.
Proof.
  unfold count_if. induction l as [|x l IH]; simpl; [done |].
  destruct (cond x); [| done]. simpl. rewrite py_sum_cons. lia.
Qed.

Section Metrics.

Context `{Externals}.

Lemma speech_duration_nonneg (audio_path : string) :
  0 <= speech_duration audio_path.
Proof.
  unfold speech_duration, librosa_get_duration.
  apply Qle_shift_div_l; [reflexivity |]. rewrite Qmult_0_l.
  change 0 with (inject_Z 0). rewrite <- Zle_Qle. apply len_nonneg.
Qed.

(** C1, as the code has it: on a frame grid that is never empty,
    [analyze_speech] returns a record, so that no division by zero is made
    (the two divisions are made for a positive duration only); its
    duration, word count, words per minute and two pause counts are not
    negative.  The words per minute are 0 when the duration of the
    waveform is 0, and also when the transcript has no word or fewer than
    one word in twenty minutes; they are 0 in no other case than a
    duration of 0 or at most one word in twenty minutes. *)
Theorem analyze_speech_nonnegative (audio_path text lang : string) :
  (forall y, librosa_feature_rms y 2048 512 <> []) ->
  exists r,
    analyze_speech audio_path text lang = Ok r /\
    0 <= duration_sec r /\
    (0 <= word_count r)%Z /\
    0 <= words_per_minute r /\
    (0 <= short_pauses r)%Z /\
    (0 <= long_pauses r)%Z /\
    (speech_duration audio_path == 0 -> words_per_minute r == 0) /\
    (word_count r = 0%Z -> words_per_minute r == 0) /\
    (1200 * inject_Z (word_count r) < speech_duration audio_path ->
     words_per_minute r == 0) /\
    (words_per_minute r == 0 ->
     speech_duration audio_path == 0
     \/ 1200 * inject_Z (word_count r) <= speech_duration audio_path).
Proof.
  intros Hgrid.
  destruct (speech_wpm_Ok audio_path text) as (rate & Hrate & Hnn & Hpos & Hzero).
  destruct (detect_pauses_total (librosa_load audio_path) 16000) as [ps Hps];
    [done | apply Hgrid |].
  pose proof (speech_duration_nonneg audio_path) as Hd.
  pose proof (len_nonneg (re_findall_words text)) as Hn.
  rewrite Zle_Qle in Hn. change (inject_Z 0) with 0 in Hn.
  unfold analyze_speech. rewrite Hrate. simpl. rewrite Hps. simpl.
  eexists. split; [reflexivity |]. simpl.
  set (duration := speech_duration audio_path) in *.
  set (n := inject_Z (len (re_findall_words text))) in *.
  assert (Hm : duration / 60 == duration * (1 # 60)) by reflexivity.
  split; [by apply py_round_nonneg |].
  split; [apply len_nonneg |].
  split; [by apply py_round_nonneg |].
  split; [apply count_if_nonneg |].
  split; [apply count_if_nonneg |].
  split; [| split; [| split]].
  - intros E. apply py_round_zero. rewrite Hzero; [reflexivity | lra].
  - intros E. apply py_round_zero.
    destruct (Qlt_le_dec 0 duration) as [Hlt | Hle].
    + rewrite (Hpos Hlt). unfold n. rewrite E. reflexivity.
    + rewrite Hzero; [reflexivity | lra].
  - intros Hlt. assert (Hdp : 0 < duration) by lra.
    apply py_round_small; [done |]. rewrite (Hpos Hdp).
    apply Qlt_shift_div_r; [lra |]. lra.
  - intros E. apply py_round_zero_inv in E.
    destruct (Qlt_le_dec 0 duration) as [Hlt | Hle]; [right | left; lra].
    rewrite (Hpos Hlt) in E.
    assert (Hmul : n / (duration / 60) * (duration / 60) <= 0.05 * (duration / 60)).
    { apply Qmult_le_compat_r; [done | lra]. }
    assert (En : n / (duration / 60) * (duration / 60) == n).
    { field. lra. }
    rewrite En in Hmul. lra.
Qed.

End Metrics.

(** ** Expressiveness labels ([analyze_prosody]) *)

Section Prosody.

Context `{Externals}.

(** C8, as the code has it: in both languages the monotony label is
    "lively" exactly when the pitch variance is above 60, "moderate"
    exactly when it is above 30 and at most 60, and "high monotony" exactly
    when it is at most 30; the dynamics label is "pronounced" exactly when
    the energy variance is above 0.03, "medium" exactly when it is above
    0.015 and at most 0.03, and "flat" exactly when it is at most 0.015. *)
Theorem prosody_thresholds (y : list Q) (sr : Q) (lang : string) :
  let r := analyze_prosody y sr lang in
  let pitch_var := prosody_pitch_var y sr in
  let energy_var := prosody_energy_var y in
  (monotony r = monotony_label lang Lively <-> 60 < pitch_var) /\
  (monotony r = monotony_label lang Moderate <-> 30 < pitch_var /\ pitch_var <= 60) /\
  (monotony r = monotony_label lang Monotonous <-> pitch_var <= 30) /\
  (energy_rating r = dynamics_label lang Pronounced <-> 0.03 < energy_var) /\
  (energy_rating r = dynamics_label lang Medium
   <-> 0.015 < energy_var /\ energy_var <= 0.03) /\
  (energy_rating r = dynamics_label lang Flat <-> energy_var <= 0.015).
Proof.
  intros r pitch_var energy_var. unfold r, analyze_prosody.
  fold pitch_var energy_var. unfold monotony_label, dynamics_label.
  destruct (String.eqb lang "en");
    destruct (Qltb 60 pitch_var) eqn:E1; destruct (Qltb 30 pitch_var) eqn:E2;
    destruct (Qltb 0.03 energy_var) eqn:E3;
    destruct (Qltb 0.015 energy_var) eqn:E4;
    simpl; Qbool;
    (repeat split; intros; try discriminate; try lra).
Qed.

End Prosody.

(** ** Long sentences ([analyze_text_quality]) *)

Section Text.

Context `{Externals}.

(** [analyze_text_quality] returns its report: the division of the
    average is made only when there is a sentence, by their number. *)
Lemma analyze_text_quality_Ok (text lang : string) :
  let sentences :=
    sent_tokenize text (if String.eqb lang "ru" then "russian" else "english") in
  exists report,
    analyze_text_quality text lang = Ok report /\
    sentence_count report = len sentences /\
    avg_sentence_length report
    = match sentences with
      | [] => 0
      | _ => inject_Z (py_sum (map (fun s => len (str_split s)) sentences))
             / inject_Z (len sentences)
      end /\
    long_sentences report
    = List.filter (fun s => (20 <? len (str_split s))%Z) sentences /\
    repetitions report
    = filter (fun wc => (3 <= wc.2)%Z)
        (foldl (fun d w => if (4 <? str_len w)%Z then incr w d else d) ∅
           (re_findall_words (str_lower text))).
Proof.
  intros sentences. unfold analyze_text_quality. fold sentences.
  destruct sentences as [|s l] eqn:E; simpl.
  - eexists. split; [reflexivity |]. by simpl.
  - eexists. split; [reflexivity |]. by simpl.
Qed.


End Text.

(** ** The per-user statistics ([update_user_stats]) *)

(** C10: [update_user_stats] returns; the record of every other user is
    what it was, and the counter ['total_analyses'] of the user (0 for a
    user not seen before) is one more than it was. *)
Theorem update_user_stats_frame (user_stats : gmap Z user_record) (now : string)
    (user_id : Z) (analysis : speech_analysis) :
  exists user_stats' : gmap Z user_record,
    update_user_stats user_stats now user_id analysis = Ok user_stats' /\
    (forall other, other <> user_id ->
       user_stats' !! other = user_stats !! other) /\
    exists stats',
      user_stats' !! user_id = Some stats' /\
      total_analyses stats'
      = (match user_stats !! user_id with
         | Some stats => total_analyses stats
         | None => 0
         end + 1)%Z.
Proof.
  unfold update_user_stats, getitem.
  destruct (user_stats !! user_id) as [stats|] eqn:E.
  - rewrite E. simpl. eexists. split; [reflexivity |]. split.
    + intros other Hne. by rewrite lookup_insert_ne.
    + eexists. split; [apply lookup_insert_eq | done].
  - rewrite lookup_insert_eq. simpl. eexists. split; [reflexivity |]. split.
    + intros other Hne. by rewrite !lookup_insert_ne.
    + eexists. split; [apply lookup_insert_eq | done].
Qed.

(** * The functions at work on sample recordings *)

Lemma framed_length (frame_energy : list Q -> Q) (y : list Q)
    (frame_length hop_length : Z) :
  length (Sample.framed frame_energy y frame_length hop_length)
  = S (length y / Z.to_nat hop_length).
Proof. unfold Sample.framed. by rewrite length_map, length_seq. Qed.

Lemma framed_nonempty (frame_energy : list Q -> Q) (y : list Q)
    (frame_length hop_length : Z) :
  Sample.framed frame_energy y frame_length hop_length <> [].
Proof.
  intros E. pose proof (framed_length frame_energy y frame_length hop_length) as Hl.
  rewrite E in Hl. discriminate.
Qed.

Lemma analyze_speech_nonnegative_witness :
  (forall y, @librosa_feature_rms (Sample.recorded []) y 2048 512 <> []) /\
  exists r,
    @analyze_speech (Sample.recorded []) "a.wav" "hello world" "en" = Ok r /\
    0 <= duration_sec r /\
    (0 <= word_count r)%Z /\
    0 <= words_per_minute r /\
    (0 <= short_pauses r)%Z /\
    (0 <= long_pauses r)%Z /\
    (@speech_duration (Sample.recorded []) "a.wav" == 0 ->
     words_per_minute r == 0) /\
    (word_count r = 0%Z -> words_per_minute r == 0) /\
    (1200 * inject_Z (word_count r) < @speech_duration (Sample.recorded []) "a.wav" ->
     words_per_minute r == 0) /\
    (words_per_minute r == 0 ->
     @speech_duration (Sample.recorded []) "a.wav" == 0
     \/ 1200 * inject_Z (word_count r)
        <= @speech_duration (Sample.recorded []) "a.wav").
Proof.
  assert (Hgrid : forall y, @librosa_feature_rms (Sample.recorded []) y 2048 512 <> []).
  { intros y. apply framed_nonempty. }
  split; [exact Hgrid |].
  exact (@analyze_speech_nonnegative (Sample.recorded []) "a.wav" "hello world"
           "en" Hgrid).
Defined.

Lemma tempo_rating_thresholds_witness :
  exists r,
    @analyze_speech (Sample.recorded short_recording) "a.wav"
      "um, like, this is, um, a test" "en" = Ok r /\
    tempo_rating r = "optimal"%string /\
    exists wpm,
      @speech_wpm (Sample.recorded short_recording) "a.wav"
        "um, like, this is, um, a test" = Ok wpm /\
      (tempo_rating r = tempo_label "en" OptimalTempo <-> 120 <= wpm /\ wpm <= 150) /\
      (tempo_rating r = tempo_label "en" TooSlow <-> wpm < 120) /\
      (tempo_rating r = tempo_label "en" TooFast <-> 150 < wpm).
Proof.
  eexists. split; [vm_compute; reflexivity |]. split; [reflexivity |].
  apply (@tempo_rating_thresholds (Sample.recorded short_recording) "a.wav"
           "um, like, this is, um, a test" "en").
  vm_compute. reflexivity.
Defined.

Lemma pause_buckets_witness :
  exists r,
    @analyze_speech (Sample.with_energy three_silences) "a.wav" "hello" "en" = Ok r /\
    short_pauses r = 1%Z /\ long_pauses r = 1%Z /\
    exists ps : list Q,
      @detect_pauses (Sample.with_energy three_silences) [] 16000 = Ok ps /\
      short_pauses r = len (filter (fun d : Q => (0.3 <= d /\ d <= 1.0)%Q) ps) /\
      long_pauses r = len (filter (fun d : Q => (1.5 < d)%Q) ps) /\
      (short_pauses r + long_pauses r
       + len (filter (fun d : Q => (1.0 < d /\ d < 1.5)%Q) ps) <= len ps)%Z.
Proof.
  eexists. split; [vm_compute; reflexivity |].
  split; [reflexivity |]. split; [reflexivity |].
  apply (@pause_buckets (Sample.with_energy three_silences) "a.wav" "hello" "en").
  vm_compute. reflexivity.
Defined.

Lemma pause_durations_witness :
  @detect_pauses (Sample.with_energy ten_silent_frames) [] 16000
  = Ok [4608 # 16000] /\
  exists t,
    np.percentile ten_silent_frames 15 = Ok t /\
    forall d, d ∈ [4608 # 16000] ->
      0.25 < d /\
      exists first last : Z,
        maximal_silent_run ten_silent_frames t first last /\
        d == inject_Z ((run_length first last - 1) * 512) / 16000.
Proof.
  assert (Hps : @detect_pauses (Sample.with_energy ten_silent_frames) [] 16000
                = Ok [4608 # 16000]) by (vm_compute; reflexivity).
  split; [exact Hps |].
  exact (@pause_durations (Sample.with_energy ten_silent_frames) [] 16000
           [4608 # 16000] Hps).
Defined.

Lemma detect_pauses_never_raises_witness :
  (forall y, length (@librosa_feature_rms (Sample.recorded []) y 2048 512)
             = S (length y / 512)) /\
  ~ 16000 == 0 /\
  (forall y, exists ps, @detect_pauses (Sample.recorded []) y 16000 = Ok ps) /\
  @detect_pauses (Sample.recorded []) [] 16000 = Ok [].
Proof.
  assert (Hgrid : forall y,
            length (@librosa_feature_rms (Sample.recorded []) y 2048 512)
            = S (length y / 512)).
  { intros y. apply (framed_length Sample.peak y 2048 512). }
  assert (Hsr : ~ 16000 == 0) by (unfold Qeq; simpl; lia).
  split; [exact Hgrid |]. split; [exact Hsr |].
  exact (@detect_pauses_never_raises (Sample.recorded []) 16000 Hgrid Hsr).
Defined.

Lemma silent_frames_below_percentile_witness :
  ~ 16000 == 0 /\
  silent_frames <> [] /\
  exists t,
    np.percentile silent_frames 15 = Ok t /\
    (len (np.where_lt silent_frames t)
     <= Z.min (Qfloor (15 / 100 * inject_Z (len silent_frames - 1)) + 1)
              (len silent_frames - 1))%Z /\
    forall e, Forall (fun x => x == e) silent_frames ->
      np.where_lt silent_frames t = [] /\
      @detect_pauses (Sample.with_energy silent_frames) [] 16000 = Ok [].
Proof.
  assert (Hsr : ~ 16000 == 0) by (unfold Qeq; simpl; lia).
  assert (Hne : silent_frames <> []) by discriminate.
  split; [exact Hsr |]. split; [exact Hne |].
  exact (@silent_frames_below_percentile (Sample.with_energy silent_frames)
           [] 16000 Hsr Hne).
Defined.

(** ** Where the code departs from the specification *)

(** C1: over a recording of ten seconds whose transcript has no word the
    words per minute are 0 and the duration is not: they are not 0
    exactly when the duration is 0. *)
Lemma zero_words_per_minute_at_positive_duration :
  exists r,
    @analyze_speech (silence 10) "a.wav" "..." "en" = Ok r /\
    @speech_duration (silence 10) "a.wav" == 10 /\
    words_per_minute r == 0 /\
    ~ (words_per_minute r == 0 <-> @speech_duration (silence 10) "a.wav" == 0).
Proof.
  eexists. split; [vm_compute; reflexivity |].
  split; [vm_compute; reflexivity |]. split; [vm_compute; reflexivity |].
  vm_compute. intros [Hd _]. specialize (Hd eq_refl). discriminate Hd.
Qed.

(** C5: a run of ten silent frames (frames 0 to 9) is reported as a pause
    of [9 * 512 / 16000 = 0.288] seconds; [10 * 512 / 16000 = 0.32]
    seconds, the number of frames of the run times the hop, is not what is
    returned for any maximal run of silent frames. *)
Lemma pause_is_not_run_length_times_hop :
  let energy := ten_silent_frames in
  let t := np.interpolate (np.sort energy) 15 in
  np.percentile energy 15 = Ok t /\
  np.where_lt energy t = [0; 1; 2; 3; 4; 5; 6; 7; 8; 9]%Z /\
  @detect_pauses (Sample.with_energy energy) [] 16000 = Ok [4608 # 16000] /\
  ~ exists first last : Z,
      maximal_silent_run energy t first last /\
      (4608 # 16000) == inject_Z (run_length first last * 512) / 16000.
Proof.
  intros energy t.
  assert (Hw : np.where_lt energy t = seqZ 0 10) by (vm_compute; reflexivity).
  split; [reflexivity |]. split; [exact Hw |].
  split; [vm_compute; reflexivity |].
  intros (first & last & (Hfl & Hrun & Hb & Ha) & Hd).
  assert (Hs : forall i, silent energy t i <-> (0 <= i < 10)%Z).
  { intros i. rewrite <- where_lt_silent, Hw, elem_of_seqZ. lia. }
  rewrite Hs in Hb, Ha.
  pose proof (proj1 (Hs first) (Hrun first ltac:(lia))).
  pose proof (proj1 (Hs last) (Hrun last ltac:(lia))).
  assert (first = 0%Z) as -> by lia. assert (last = 9%Z) as -> by lia.
  vm_compute in Hd. discriminate Hd.
Qed.

(** C7: a recording of five seconds of silence has 157 frames, all of
    energy 0; the threshold is 0, no frame is below it, and
    [detect_pauses] returns no pause at all. *)
Lemma silent_recording_has_no_pause :
  let y := repeat 0 (Z.to_nat 80000) in
  let energy := @librosa_feature_rms (Sample.recorded y) y 2048 512 in
  energy = repeat 0 157 /\
  np.percentile energy 15 = Ok (np.interpolate (np.sort energy) 15) /\
  np.interpolate (np.sort energy) 15 == 0 /\
  np.where_lt energy (np.interpolate (np.sort energy) 15) = [] /\
  @detect_pauses (Sample.recorded y) y 16000 = Ok [].
Proof.
  intros y energy.
  assert (He : energy = repeat 0 157) by (vm_compute; reflexivity).
  split; [exact He |]. rewrite He.
  split; [reflexivity |]. split; [vm_compute; reflexivity |].
  split; vm_compute; reflexivity.
Qed.

(** C8: at a pitch variance of exactly 30 the label is "high monotony",
    not "moderate", and at an energy variance of exactly 0.015 the label is
    "flat", not "medium". *)
Lemma prosody_boundaries_fall_in_lower_band :
  let r := @analyze_prosody boundary_voice [] 16000 "en" in
  let pitch_var := @prosody_pitch_var boundary_voice [] 16000 in
  let energy_var := @prosody_energy_var boundary_voice [] in
  pitch_var == 30 /\
  monotony r = monotony_label "en" Monotonous /\
  monotony r <> monotony_label "en" Moderate /\
  ~ pitch_var < 30 /\
  energy_var == 0.015 /\
  energy_rating r = dynamics_label "en" Flat /\
  energy_rating r <> dynamics_label "en" Medium /\
  ~ energy_var < 0.015.
Proof.
  vm_compute. repeat split; try reflexivity; discriminate.
Qed.

(** ** Scenarios of the specification *)

(** "um, like, this is, um, a test" in English: three fillers, [um] twice
    and [like] once. *)
Example fillers_scenario :
  let report := @count_fillers (silence 0) "um, like, this is, um, a test" "en" in
  report.1 = 3%Z /\
  report.2 = {[ "um"%string := 2%Z; "like"%string := 1%Z ]}.
Proof. vm_compute. split; reflexivity. Qed.

(** 130 words over exactly 60 seconds: 130 words per minute, optimal. *)
Example sixty_seconds_scenario :
  exists r,
    @analyze_speech (silence 60) "a.wav" (String.concat " " (repeat "word" 130)) "en"
    = Ok r /\
    word_count r = 130%Z /\ duration_sec r == 60 /\
    words_per_minute r == 130 /\ tempo_rating r = "optimal"%string.
Proof.
  eexists. split; [vm_compute; reflexivity |].
  repeat split; vm_compute; reflexivity.
Qed.

(** No word over 10 seconds: 0 words per minute, too slow; the words per
    minute are 0 although the duration is not. *)
Example no_word_scenario :
  exists r,
    @analyze_speech (silence 10) "a.wav" "..." "en" = Ok r /\
    word_count r = 0%Z /\ duration_sec r == 10 /\
    words_per_minute r == 0 /\ tempo_rating r = "too slow"%string.
Proof.
  eexists. split; [vm_compute; reflexivity |].
  repeat split; vm_compute; reflexivity.
Qed.

(** A sentence of 25 words is a long sentence, a sentence of 20 words is
    not. *)
Example long_sentence_scenario :
  let s25 := (String.concat " " (repeat "word" 25) ++ ".")%string in
  let s20 := (String.concat " " (repeat "word" 20) ++ ".")%string in
  exists report,
    @analyze_text_quality (silence 0) (s20 ++ " " ++ s25 ++ " " ++ s20)%string "en"
    = Ok report /\
    sentence_count report = 3%Z /\ long_sentences report = [s25] /\
    avg_sentence_length report == 65 / 3.
Proof.
  eexists. split; [vm_compute; reflexivity |].
  split; [reflexivity |]. split; [reflexivity |]. vm_compute. reflexivity.
Qed.

(** A transcript without sentence: the report has 0 sentences and the
    average 0, and no division is made. *)
Example no_sentence_scenario :
  @sent_tokenize (silence 0) " " "english" = [] /\
  exists report,
    @analyze_text_quality (silence 0) " " "en" = Ok report /\
    sentence_count report = 0%Z /\ avg_sentence_length report = 0.
Proof.
  split; [vm_compute; reflexivity |].
  eexists. split; [vm_compute; reflexivity |]. split; reflexivity.
Qed.

(** * Further properties of the code *)

(** ** Counting loops ([count_fillers], [analyze_text_quality]) *)

Lemma occurrences_cons (w x : string) (words : list string) :
  occurrences w (x :: words)
  = ((if decide (x = w) then 1 else 0) + occurrences w words)%Z.
Proof.
  unfold occurrences, len. rewrite filter_cons.
  destruct (decide (x = w)); simpl; lia.
Qed.

Lemma occurrences_nonneg (w : string) (words : list string) :
  (0 <= occurrences w words)%Z.
Proof. apply len_nonneg. Qed.

Lemma occurrences_pos (w : string) (words : list string) :
  w ∈ words <-> (1 <= occurrences w words)%Z.
Proof.
  induction words as [|x words IH].
  - split; [by intros ?%elem_of_nil | unfold occurrences, len; simpl; lia].
  - rewrite occurrences_cons, elem_of_cons.
    pose proof (occurrences_nonneg w words).
    destruct (decide (x = w)) as [-> | Hne].
    + split; [lia | by left].
    + rewrite IH. split; [intros [? | ?]; [congruence | lia] | right; lia].
Qed.

(** A loop [for w in words: if cond(w): d[w] = d.get(w, 0) + 1] adds to
    each token that satisfies [cond] the number of its occurrences. *)
Lemma counting_loop (cond : string -> bool)
    (step : gmap string Z -> string -> gmap string Z) :
  (forall d w, step d w = if cond w then incr w d else d) ->
  forall (words : list string) (d : gmap string Z) (w : string),
    foldl step d words !! w
    = if cond w && bool_decide (w ∈ words)
      then Some (default 0 (d !! w) + occurrences w words)%Z
      else d !! w.
Proof.
  intros Hstep words. induction words as [|x words IH]; intros d w; simpl.
  { by rewrite andb_false_r. }
  rewrite IH, Hstep, occurrences_cons.
  destruct (decide (x = w)) as [-> | Hne].
  - rewrite (bool_decide_eq_true_2 (w ∈ w :: words)) by (by left).
    destruct (cond w) eqn:Ec; simpl.
    + unfold incr. rewrite lookup_insert_eq. simpl.
      destruct (bool_decide (w ∈ words)) eqn:Ew.
      * f_equal. lia.
      * apply bool_decide_eq_false_1 in Ew.
        assert (occurrences w words = 0%Z).
        { pose proof (occurrences_nonneg w words).
          rewrite occurrences_pos in Ew. lia. }
        f_equal. lia.
    + done.
  - assert (Hm : bool_decide (w ∈ x :: words) = bool_decide (w ∈ words)).
    { apply bool_decide_ext. rewrite elem_of_cons.
      split; [intros [? | ?]; [congruence | done] | by right]. }
    rewrite Hm.
    assert (Hl : (if cond x then incr x d else d) !! w = d !! w).
    { destruct (cond x); [| done]. unfold incr. by rewrite lookup_insert_ne. }
    rewrite Hl. by rewrite Z.add_0_l.
Qed.

Section Counting.

Context `{Externals}.

(** X1: the breakdown of [count_fillers] has exactly the tokens of the
    lower-cased transcript that are in the vocabulary, each with the
    number of its occurrences, which is at least 1. *)
Theorem count_fillers_breakdown (text lang : string) (w : string) (c : Z) :
  let words := re_findall_words (str_lower text) in
  (count_fillers text lang).2 !! w = Some c
  <-> w ∈ vocabulary lang /\ w ∈ words
      /\ c = occurrences w words /\ (1 <= c)%Z.
Proof.
  intros words. unfold count_fillers. simpl. fold words. fold (vocabulary lang).
  rewrite (counting_loop (fun w => bool_decide (w ∈ vocabulary lang))).
  2: { intros d x. destruct (decide (x ∈ vocabulary lang)) as [Hx | Hx].
       - by rewrite bool_decide_eq_true_2.
       - by rewrite bool_decide_eq_false_2. }
  rewrite lookup_empty. simpl.
  destruct (bool_decide (w ∈ vocabulary lang)) eqn:Ev;
    destruct (bool_decide (w ∈ words)) eqn:Ew; simpl;
    try apply bool_decide_eq_true_1 in Ev; try apply bool_decide_eq_false_1 in Ev;
    try apply bool_decide_eq_true_1 in Ew; try apply bool_decide_eq_false_1 in Ew;
    (split; [try discriminate | try tauto]).
  - intros [= <-]. pose proof (proj1 (occurrences_pos w words) Ew).
    repeat split; try done; lia.
  - by intros (_ & _ & -> & _).
Qed.

(** X2: the repetitions of [analyze_text_quality] are exactly the tokens
    of the lower-cased transcript of more than 4 characters that occur at
    least 3 times, each with the number of its occurrences. *)
Theorem repetitions_are_frequent_long_words (text lang : string) :
  let words := re_findall_words (str_lower text) in
  exists report,
    analyze_text_quality text lang = Ok report /\
    forall (w : string) (c : Z),
      repetitions report !! w = Some c
      <-> (4 < str_len w)%Z /\ c = occurrences w words /\ (3 <= c)%Z.
Proof.
  intros words.
  destruct (analyze_text_quality_Ok text lang) as (report & Hr & _ & _ & _ & Hrep).
  fold words in Hrep. exists report. split; [done |]. intros w c. rewrite Hrep.
  rewrite map_lookup_filter_Some. simpl.
  rewrite (counting_loop (fun w => (4 <? str_len w)%Z)) by done.
  rewrite lookup_empty. simpl.
  destruct (4 <? str_len w)%Z eqn:E4;
    [apply Z.ltb_lt in E4 | apply Z.ltb_ge in E4]; simpl.
  - destruct (bool_decide (w ∈ words)) eqn:Ew.
    + split.
      * intros [[= <-] Hc]. repeat split; try done; lia.
      * intros (_ & -> & Hc). split; [f_equal; lia | done].
    + apply bool_decide_eq_false_1 in Ew. rewrite occurrences_pos in Ew.
      split; [by intros [? _] | intros (_ & -> & Hc); lia].
  - split; [by intros [? _] | intros (? & _); lia].
Qed.

End Counting.

(** ** Sentence lengths ([analyze_text_quality]) *)

Lemma py_sum_map_lower {A : Type} (f : A -> Z) (lo : Z) (l : list A) :
  Forall (fun x => (lo <= f x)%Z) l -> (lo * len l <= py_sum (map f l))%Z.
Proof.
  unfold len. induction 1 as [|x l Hx _ IH]; simpl.
  { change (Z.of_nat 0) with 0%Z. by rewrite Z.mul_0_r. }
  rewrite py_sum_cons. nia.
Qed.

Lemma py_sum_map_upper {A : Type} (f : A -> Z) (hi : Z) (l : list A) :
  Forall (fun x => (f x <= hi)%Z) l -> (py_sum (map f l) <= hi * len l)%Z.
Proof.
  unfold len. induction 1 as [|x l Hx _ IH]; simpl.
  { change (Z.of_nat 0) with 0%Z. by rewrite Z.mul_0_r. }
  rewrite py_sum_cons. nia.
Qed.

Lemma filter_nil_all {A : Type} (f : A -> bool) (l : list A) :
  List.filter f l = [] -> Forall (fun x => f x = false) l.
Proof.
  induction l as [|x l IH]; simpl; [constructor |].
  destruct (f x) eqn:E; [discriminate |]. intros Hl. constructor; auto.
Qed.

Lemma filter_all {A : Type} (f : A -> bool) (l : list A) :
  List.filter f l = l -> Forall (fun x => f x = true) l.
Proof.
  induction l as [|x l IH]; simpl; [constructor |].
  destruct (f x) eqn:E.
  - intros [= Hl]. constructor; auto.
  - intros Hl. pose proof (List.filter_length_le f l) as Hle.
    rewrite Hl in Hle. simpl in Hle. lia.
Qed.

Section Sentences.

Context `{Externals}.

(** X3: [analyze_text_quality] returns a report for every transcript: it
    raises no [ZeroDivisionError], the average being divided by the number
    of sentences only when there is one.  The average sentence length is
    never negative, is 0 when the transcript has no sentence, is at most
    20 when no sentence is reported as long, and is above 20 when every
    sentence is. *)
Theorem average_sentence_length_bounds (text lang : string) :
  let sentences :=
    sent_tokenize text (if String.eqb lang "ru" then "russian" else "english") in
  exists report,
    analyze_text_quality text lang = Ok report /\
    0 <= avg_sentence_length report /\
    (sentences = [] ->
     avg_sentence_length report == 0 /\ sentence_count report = 0%Z) /\
    (long_sentences report = [] -> avg_sentence_length report <= 20) /\
    (sentences <> [] -> long_sentences report = sentences ->
     20 < avg_sentence_length report).
Proof.
  intros sentences.
  destruct (analyze_text_quality_Ok text lang)
    as (report & Hr & Hcount & Hav & Hls & _).
  fold sentences in Hcount, Hav, Hls. exists report. split; [done |].
  rewrite Hcount, Hav, Hls. clear Hr Hcount Hav Hls.
  set (words_of := fun s => len (str_split s)).
  assert (Hn : sentences <> [] -> 0 < inject_Z (len sentences)).
  { intros Hne. change 0 with (inject_Z 0). rewrite <- Zlt_Qlt.
    unfold len. destruct sentences; [done | simpl; lia]. }
  assert (Havg : sentences <> [] ->
            match sentences with
            | [] => 0
            | _ :: _ => inject_Z (py_sum (map words_of sentences))
                        / inject_Z (len sentences)
            end = inject_Z (py_sum (map words_of sentences))
                  / inject_Z (len sentences)).
  { by destruct sentences. }
  split; [| split; [| split]].
  - destruct (decide (sentences = [])) as [-> | Hne]; [apply Qle_refl |].
    rewrite (Havg Hne). apply Qle_shift_div_l; [by apply Hn |].
    rewrite Qmult_0_l. change 0 with (inject_Z 0). rewrite <- Zle_Qle.
    etrans; [| apply (py_sum_map_lower words_of 0)]; [lia |].
    apply Forall_forall. intros s _. apply len_nonneg.
  - intros ->. split; [reflexivity | done].
  - intros Hlong. destruct (decide (sentences = [])) as [-> | Hne]; [done |].
    rewrite (Havg Hne). apply Qle_shift_div_r; [by apply Hn |].
    change 20 with (inject_Z 20). rewrite <- inject_Z_mult, <- Zle_Qle.
    apply filter_nil_all in Hlong. apply py_sum_map_upper.
    eapply Forall_impl; [exact Hlong |]. intros s Hs. simpl in Hs.
    by apply Z.ltb_ge in Hs.
  - intros Hne Hlong. rewrite (Havg Hne).
    apply Qlt_shift_div_l; [by apply Hn |].
    change 20 with (inject_Z 20). rewrite <- inject_Z_mult, <- Zlt_Qlt.
    apply filter_all in Hlong.
    assert (Hb : (21 * len sentences <= py_sum (map words_of sentences))%Z).
    { apply py_sum_map_lower.
      eapply Forall_impl; [exact Hlong |]. intros s Hs. simpl in Hs.
      apply Z.ltb_lt in Hs. unfold words_of. lia. }
    assert (0 < len sentences)%Z.
    { unfold len. destruct sentences; [done | simpl; lia]. }
    lia.
Qed.

End Sentences.

(** ** Unvoiced recordings ([analyze_prosody]) *)

Section Unvoiced.

Context `{Externals}.

(** X4: with fewer than two voiced pitch observations the pitch mean and
    variance are reported as 0 and the monotony label is the
    "high monotony" one of the language. *)
Theorem unvoiced_recording_is_monotonous (y : list Q) (sr : Q) (lang : string) :
  (len (voiced_pitch y sr) < 2)%Z ->
  let r := analyze_prosody y sr lang in
  pitch_mean r == 0 /\ pitch_variance r == 0 /\
  monotony r = monotony_label lang Monotonous.
Proof.
  intros Hlen r.
  assert (Hp : prosody_pitch y sr = voiced_pitch y sr).
  { unfold prosody_pitch. fold (voiced_pitch y sr).
    assert (E : (10 <? len (voiced_pitch y sr))%Z = false) by (apply Z.ltb_ge; lia).
    by rewrite E. }
  assert (E1 : (1 <? len (voiced_pitch y sr))%Z = false) by (apply Z.ltb_ge; lia).
  assert (Hv : prosody_pitch_var y sr = 0).
  { unfold prosody_pitch_var. by rewrite Hp, E1. }
  assert (Hm : prosody_pitch_mean y sr = 0).
  { unfold prosody_pitch_mean. by rewrite Hp, E1. }
  unfold r, analyze_prosody. rewrite Hv, Hm. unfold monotony_label.
  destruct (String.eqb lang "en"); simpl;
    (split; [by apply py_round_zero | split; [by apply py_round_zero | done]]).
Qed.

End Unvoiced.

Lemma unvoiced_recording_is_monotonous_witness :
  (len (@voiced_pitch (Sample.recorded short_recording) short_recording 16000) < 2)%Z /\
  let r := @analyze_prosody (Sample.recorded short_recording) short_recording 16000 "en" in
  pitch_mean r == 0 /\ pitch_variance r == 0 /\
  monotony r = monotony_label "en" Monotonous.
Proof.
  assert (Hlen : (len (@voiced_pitch (Sample.recorded short_recording)
                         short_recording 16000) < 2)%Z) by (vm_compute; reflexivity).
  split; [exact Hlen |].
  exact (@unvoiced_recording_is_monotonous (Sample.recorded short_recording)
           short_recording 16000 "en" Hlen).
Defined.

(** ** The share of the recording reported as pauses ([detect_pauses]) *)

Lemma Qsum_app (l1 l2 : list Q) : Qsum (l1 ++ l2) == Qsum l1 + Qsum l2.
Proof.
  induction l1 as [|x l1 IH]; simpl; [ring |]. rewrite IH. ring.
Qed.

(** One iteration keeps the pauses found so far, the open run included,
    within one hop per silent frame visited after the first. *)
Lemma pause_step_budget (fd : Q) (st : pause_loop) (f k : Z) :
  0 <= fd -> (start st <= prev st)%Z -> (prev st < f)%Z ->
  Qsum (pauses st) + inject_Z (prev st - start st) * fd <= inject_Z k * fd ->
  let st' := pause_step fd st f in
  (start st' <= prev st')%Z /\ prev st' = f /\
  Qsum (pauses st') + inject_Z (prev st' - start st') * fd
  <= inject_Z (k + 1) * fd.
Proof.
  intros Hfd Hsp Hpf Hb. unfold pause_step.
  assert (Hd : 0 <= inject_Z (prev st - start st) * fd).
  { apply Qmult_le_0_compat; [| done].
    change 0 with (inject_Z 0). rewrite <- Zle_Qle. lia. }
  rewrite inject_Z_plus. change (inject_Z 1) with 1.
  destruct (1 <? f - prev st)%Z eqn:E; simpl.
  - split; [lia |]. split; [done |].
    rewrite Z.sub_diag. change (inject_Z 0) with 0.
    destruct (Qltb 0.25 _); [rewrite Qsum_app; simpl |]; lra.
  - apply Z.ltb_ge in E. split; [lia |]. split; [done |].
    replace (f - start st)%Z with ((prev st - start st) + 1)%Z by lia.
    rewrite inject_Z_plus. change (inject_Z 1) with 1. lra.
Qed.

Lemma pause_loop_budget (fd : Q) (rest : list Z) (st : pause_loop) (k : Z) :
  0 <= fd -> (start st <= prev st)%Z ->
  StronglySorted Z.lt (prev st :: rest) ->
  Qsum (pauses st) + inject_Z (prev st - start st) * fd <= inject_Z k * fd ->
  let st' := foldl (pause_step fd) st rest in
  (start st' <= prev st')%Z /\
  Qsum (pauses st') + inject_Z (prev st' - start st') * fd
  <= inject_Z (k + len rest) * fd.
Proof.
  intros Hfd. revert st k.
  induction rest as [|f rest IH]; intros st k Hsp Hsorted Hb; simpl.
  { unfold len. simpl. by rewrite Z.add_0_r. }
  apply StronglySorted_cons in Hsorted as [Hlt Hsorted].
  apply Forall_cons in Hlt as [Hf Hlt].
  destruct (pause_step_budget fd st f k Hfd Hsp Hf Hb) as (Hsp' & Hprev & Hb').
  specialize (IH (pause_step fd st f) (k + 1)%Z Hsp').
  rewrite Hprev in IH. specialize (IH Hsorted).
  rewrite Hprev in Hb'. specialize (IH Hb').
  replace (k + len (f :: rest))%Z with (k + 1 + len rest)%Z
    by (unfold len; simpl; lia).
  exact IH.
Qed.

Section Share.

Context `{Externals}.

(** The durations [detect_pauses] returns are above 0.25 seconds, and
    together they take at most one hop per silent frame but one. *)
Lemma detect_pauses_budget (y : list Q) (sr : Q) (ps : list Q) :
  0 < sr -> detect_pauses y sr = Ok ps ->
  let energy := librosa_feature_rms y 2048 512 in
  Forall (fun d => 0.25 < d) ps /\
  Qsum ps <= 15 / 100 * inject_Z (len energy - 1) * (512 / sr).
Proof.
  intros Hsr Hps energy. unfold detect_pauses in Hps. fold energy in Hps.
  destruct (Qeq_bool sr 0); [discriminate |].
  destruct (np.percentile energy 15) as [t|] eqn:Ht; [| discriminate].
  simpl in Hps.
  assert (Hfd : 0 <= 512 / sr).
  { apply Qle_shift_div_l; [done | lra]. }
  assert (Hn : (1 <= len energy)%Z).
  { apply percentile_Ok in Ht as [Hne _]. unfold len.
    destruct energy; [done | simpl; lia]. }
  assert (Hn' : 0 <= inject_Z (len energy - 1)).
  { change 0 with (inject_Z 0). rewrite <- Zle_Qle. lia. }
  destruct (np.where_lt energy t) as [|f0 rest] eqn:Hsf.
  { injection Hps as <-. split; [constructor |]. change (Qsum []) with 0.
    apply Qmult_le_0_compat; [| done].
    apply Qmult_le_0_compat; [by vm_compute | done]. }
  injection Hps as <-. split.
  { pose proof (loop_result (silent energy t) (inject_Z 512 / sr)
                  (np.where_lt energy t) f0 rest Hsf
                  (where_lt_from_sorted 0 energy t)
                  (where_lt_silent energy t)) as Hall.
    simpl in Hall. eapply Forall_impl; [exact Hall |]. by intros d [Hd _]. }
  pose proof (where_lt_from_sorted 0 energy t) as Hsorted.
  fold (np.where_lt energy t) in Hsorted. rewrite Hsf in Hsorted.
  destruct (pause_loop_budget (inject_Z 512 / sr) rest
              {| start := f0; prev := f0; pauses := [] |} 0)
    as [Hsp Hb]; simpl; [done | lia | done | | ].
  { rewrite Z.sub_diag. change (inject_Z 0) with 0. lra. }
  set (st := foldl _ _ rest) in *.
  assert (Hd : 0 <= inject_Z (prev st - start st) * (inject_Z 512 / sr)).
  { apply Qmult_le_0_compat; [| done].
    change 0 with (inject_Z 0). rewrite <- Zle_Qle. lia. }
  assert (Hcount : (len rest <= Qfloor (15 / 100 * inject_Z (len energy - 1)))%Z).
  { pose proof (percentile_below energy 15 t ltac:(lra) ltac:(lra) Ht) as Hp.
    unfold len in Hp at 1.
    rewrite <- where_lt_from_length with (i := 0%Z) in Hp.
    fold (np.where_lt energy t) in Hp. rewrite Hsf in Hp.
    change (length (f0 :: rest)) with (S (length rest)) in Hp.
    unfold len at 1. lia. }
  assert (Hfl : inject_Z (0 + len rest) <= 15 / 100 * inject_Z (len energy - 1)).
  { rewrite Z.add_0_l. eapply Qle_trans; [| apply Qfloor_le].
    by rewrite <- Zle_Qle. }
  assert (Hmul : inject_Z (0 + len rest) * (inject_Z 512 / sr)
                 <= 15 / 100 * inject_Z (len energy - 1) * (512 / sr)).
  { by apply Qmult_le_compat_r. }
  destruct (Qltb 0.25 _); [rewrite Qsum_app; simpl |]; lra.
Qed.

(** On librosa's frame grid the hops between the first and the last frame
    fit in the waveform. *)
Lemma grid_within_duration (y : list Q) (sr : Q) :
  (forall y, length (librosa_feature_rms y 2048 512) = S (length y / 512)) ->
  0 < sr ->
  15 / 100 * inject_Z (len (librosa_feature_rms y 2048 512) - 1) * (512 / sr)
  <= 0.15 * librosa_get_duration y sr.
Proof.
  intros Hgrid Hsr.
  unfold librosa_get_duration, len. rewrite Hgrid.
  replace (Z.of_nat (S (length y / 512)) - 1)%Z
    with (Z.of_nat (length y / 512)) by lia.
  assert (Hdiv : (Z.of_nat (length y / 512) * 512 <= Z.of_nat (length y))%Z).
  { pose proof (Nat.Div0.mul_div_le (length y) 512). lia. }
  rewrite Zle_Qle, inject_Z_mult in Hdiv.
  change (inject_Z 512) with 512 in Hdiv.
  assert (Hinv : 0 < / sr) by (by apply Qinv_lt_0_compat).
  unfold Qdiv.
  set (a := inject_Z (Z.of_nat (length y / 512))) in *.
  set (b := inject_Z (Z.of_nat (length y))) in *.
  assert (Hab : a * 512 * / sr <= b * / sr).
  { apply Qmult_le_compat_r; [done | lra]. }
  assert (E15 : 15 * / 100 == 0.15) by reflexivity.
  assert (E : 15 * / 100 * a * (512 * / sr) == 0.15 * (a * 512 * / sr))
    by (rewrite E15; ring).
  rewrite E. apply Qmult_le_l; [reflexivity | exact Hab].
Qed.

(** X5: on librosa's frame grid and at a positive sample rate, the pauses
    [detect_pauses] returns add up to at most 15% of the duration of the
    waveform. *)
Theorem pauses_within_fifteen_percent (y : list Q) (sr : Q) (ps : list Q) :
  (forall y, length (librosa_feature_rms y 2048 512) = S (length y / 512)) ->
  0 < sr -> detect_pauses y sr = Ok ps ->
  Qsum ps <= 0.15 * librosa_get_duration y sr.
Proof.
  intros Hgrid Hsr Hps.
  destruct (detect_pauses_budget y sr ps Hsr Hps) as [_ Hb]. simpl in Hb.
  eapply Qle_trans; [exact Hb | by apply grid_within_duration].
Qed.

Lemma count_if_cons {A : Type} (cond : A -> bool) (x : A) (l : list A) :
  count_if cond (x :: l) = ((if cond x then 1 else 0) + count_if cond l)%Z.
Proof.
  unfold count_if. simpl. destruct (cond x); [| done].
  simpl. by rewrite py_sum_cons.
Qed.

(** The two buckets of [analyze_speech] weigh at most the pauses they are
    taken from. *)
Lemma buckets_within_pauses (ps : list Q) :
  Forall (fun d => 0.25 < d) ps ->
  0.3 * inject_Z (count_if (fun p => Qleb 0.3 p && Qleb p 1.0) ps)
  + 1.5 * inject_Z (count_if (fun p => Qltb 1.5 p) ps)
  <= Qsum ps.
Proof.
  induction 1 as [|d ps Hd _ IH].
  { by vm_compute. }
  rewrite !count_if_cons, !inject_Z_plus. simpl Qsum.
  destruct (Qleb 0.3 d) eqn:E1; destruct (Qleb d 1.0) eqn:E2;
    destruct (Qltb 1.5 d) eqn:E3; simpl andb; cbv iota;
    change (inject_Z 1) with 1; change (inject_Z 0) with 0; Qbool; lra.
Qed.

(** X6: in the record of [analyze_speech], 0.3 seconds per short pause and
    1.5 seconds per long pause fit in 15% of the duration of the
    recording; a recording of less than ten seconds has no long pause. *)
Theorem pause_counts_within_duration (audio_path text lang : string)
    (r : speech_analysis) :
  (forall y, length (librosa_feature_rms y 2048 512) = S (length y / 512)) ->
  analyze_speech audio_path text lang = Ok r ->
  0.3 * inject_Z (short_pauses r) + 1.5 * inject_Z (long_pauses r)
  <= 0.15 * speech_duration audio_path /\
  (speech_duration audio_path < 10 -> long_pauses r = 0%Z).
Proof.
  intros Hgrid Hr. analysis_of Hr rate Hrate ps Hps.
  assert (Hsr : 0 < 16000) by reflexivity.
  destruct (detect_pauses_budget _ _ ps Hsr Hps) as [Hpos Hb]. simpl in Hb.
  pose proof (grid_within_duration (librosa_load audio_path) 16000 Hgrid Hsr) as Hg.
  pose proof (buckets_within_pauses ps Hpos) as Hc.
  fold (speech_duration audio_path) in Hg.
  assert (Hmain :
    0.3 * inject_Z (count_if (fun p => Qleb 0.3 p && Qleb p 1.0) ps)
    + 1.5 * inject_Z (count_if (fun p => Qltb 1.5 p) ps)
    <= 0.15 * speech_duration audio_path).
  { eapply Qle_trans; [exact Hc |]. eapply Qle_trans; [exact Hb | exact Hg]. }
  split; [exact Hmain |].
  intros Hshort.
  pose proof (count_if_nonneg (fun p => Qleb 0.3 p && Qleb p 1.0) ps) as Hs0.
  pose proof (count_if_nonneg (fun p => Qltb 1.5 p) ps) as Hl0.
  destruct (decide (count_if (fun p => Qltb 1.5 p) ps = 0%Z)) as [? | Hne]; [done |].
  exfalso.
  assert (Hl1 : (1 <= count_if (fun p => Qltb 1.5 p) ps)%Z) by lia.
  rewrite Zle_Qle in Hs0, Hl1.
  change (inject_Z 0) with 0 in Hs0. change (inject_Z 1) with 1 in Hl1.
  set (s := inject_Z (count_if _ ps)) in *.
  set (l := inject_Z (count_if (fun p => Qltb 1.5 p) ps)) in *.
  set (dur := speech_duration audio_path) in *.
  clearbody s l dur. clear -Hmain Hshort Hs0 Hl1. lra.
Qed.

End Share.

(** ** The rolling history ([update_user_stats]) *)

Lemma last_n_short {A : Type} (n : nat) (l : list A) :
  (length l <= n)%nat -> last_n n l = l.
Proof.
  intros Hl. unfold last_n. by replace (length l - n)%nat with 0%nat by lia.
Qed.

Lemma last_n_length {A : Type} (n : nat) (l : list A) :
  length (last_n n l) = Nat.min n (length l).
Proof. unfold last_n. rewrite length_drop. lia. Qed.

Lemma last_n_snoc {A : Type} (n : nat) (l : list A) (x : A) :
  (1 <= n)%nat -> last_n n (last_n n l ++ [x]) = last_n n (l ++ [x]).
Proof.
  intros Hn. unfold last_n at 1 3. rewrite !length_app, last_n_length. simpl.
  destruct (decide (length l <= n)%nat) as [Hle | Hgt].
  - rewrite (last_n_short n l Hle).
    by replace (Nat.min n (length l) + 1 - n)%nat
      with (length l + 1 - n)%nat by lia.
  - unfold last_n.
    replace (Nat.min n (length l) + 1 - n)%nat with 1%nat by lia.
    rewrite !drop_app_le by (rewrite ?length_drop; lia).
    rewrite drop_drop. f_equal. f_equal. lia.
Qed.

(** The two lines that bound the history keep its last ten entries. *)
Lemma history_pop (l : list history_entry) (e : history_entry) :
  (length l <= 10)%nat ->
  (if (10 <? len (l ++ [e]))%Z then drop 1 (l ++ [e]) else l ++ [e])
  = last_n 10 (l ++ [e]).
Proof.
  intros Hl. unfold len, last_n. rewrite length_app. simpl.
  destruct (10 <? Z.of_nat (length l + 1))%Z eqn:E.
  - apply Z.ltb_lt in E. by replace (length l + 1 - 10)%nat with 1%nat by lia.
  - apply Z.ltb_ge in E. by replace (length l + 1 - 10)%nat with 0%nat by lia.
Qed.

Lemma update_user_stats_known (user_stats : gmap Z user_record) (now : string)
    (user_id : Z) (analysis : speech_analysis) (stats : user_record) :
  user_stats !! user_id = Some stats ->
  update_user_stats user_stats now user_id analysis
  = Ok (<[user_id :=
            {| total_analyses := total_analyses stats + 1;
               total_wpm := total_wpm stats + words_per_minute analysis;
               total_fillers := total_fillers stats + fillers_count analysis;
               last_analysis_date := Some now;
               analyses_history :=
                 let history := analyses_history stats ++ [summary now analysis] in
                 if (10 <? len history)%Z then drop 1 history else history |}]>
          user_stats).
Proof.
  intros Hs. unfold update_user_stats, getitem. by rewrite Hs, Hs.
Qed.

Lemma update_user_stats_new (user_stats : gmap Z user_record) (now : string)
    (user_id : Z) (analysis : speech_analysis) :
  user_stats !! user_id = None ->
  update_user_stats user_stats now user_id analysis
  = Ok (<[user_id :=
            {| total_analyses := 1;
               total_wpm := 0 + words_per_minute analysis;
               total_fillers := 0 + fillers_count analysis;
               last_analysis_date := Some now;
               analyses_history := [summary now analysis] |}]>
          user_stats).
Proof.
  intros Hs. unfold update_user_stats, getitem.
  rewrite Hs, lookup_insert_eq. simpl. by rewrite insert_insert_eq.
Qed.

(** X7: when the history of a user holds at most ten entries, after
    [update_user_stats] it holds the last ten of the old entries followed
    by the new one: at most ten entries, the new one last, and the oldest
    one dropped when there were ten. *)
Theorem history_keeps_last_ten (user_stats : gmap Z user_record) (now : string)
    (user_id : Z) (analysis : speech_analysis) (stats : user_record) :
  user_stats !! user_id = Some stats ->
  (length (analyses_history stats) <= 10)%nat ->
  exists user_stats' stats',
    update_user_stats user_stats now user_id analysis = Ok user_stats' /\
    user_stats' !! user_id = Some stats' /\
    analyses_history stats'
    = last_n 10 (analyses_history stats ++ [summary now analysis]) /\
    (length (analyses_history stats') <= 10)%nat /\
    last (analyses_history stats') = Some (summary now analysis) /\
    (length (analyses_history stats) = 10%nat ->
     analyses_history stats'
     = drop 1 (analyses_history stats) ++ [summary now analysis]).
Proof.
  intros Hs Hl. eexists _, _.
  split; [by apply update_user_stats_known |].
  split; [apply lookup_insert_eq |]. simpl.
  rewrite history_pop by done.
  split; [done |]. split; [rewrite last_n_length; lia |]. split.
  - unfold last_n. rewrite length_app. simpl.
    rewrite drop_app_le by lia. apply last_snoc.
  - intros H10. unfold last_n. rewrite length_app, H10. simpl.
    apply drop_app_le. lia.
Qed.

Lemma entries_of_snoc (user_id : Z) (calls : list (string * Z * speech_analysis))
    (now : string) (v : Z) (analysis : speech_analysis) :
  entries_of user_id (calls ++ [(now, v, analysis)])
  = entries_of user_id calls
    ++ (if decide (v = user_id) then [summary now analysis] else []).
Proof.
  unfold entries_of. rewrite filter_app, map_app. f_equal.
  rewrite filter_cons, filter_nil. simpl. by destruct (decide (v = user_id)).
Qed.

Lemma accounts_for_first (now : string) (analysis : speech_analysis) :
  accounts_for [summary now analysis]
    {| total_analyses := 1;
       total_wpm := 0 + words_per_minute analysis;
       total_fillers := 0 + fillers_count analysis;
       last_analysis_date := Some now;
       analyses_history := [summary now analysis] |}.
Proof. by repeat split. Qed.

Lemma accounts_for_next (es : list history_entry) (stats : user_record)
    (now : string) (analysis : speech_analysis) :
  accounts_for es stats ->
  accounts_for (es ++ [summary now analysis])
    {| total_analyses := total_analyses stats + 1;
       total_wpm := total_wpm stats + words_per_minute analysis;
       total_fillers := total_fillers stats + fillers_count analysis;
       last_analysis_date := Some now;
       analyses_history :=
         let history := analyses_history stats ++ [summary now analysis] in
         if (10 <? len history)%Z then drop 1 history else history |}.
Proof.
  intros (Hn & Hw & Hf & _ & Hh). unfold accounts_for. simpl.
  rewrite !map_app, !foldl_app, <- Hw, <- Hf, Hn, last_snoc. simpl.
  split; [unfold len; rewrite length_app; simpl; lia |].
  split; [done |]. split; [done |]. split; [done |].
  rewrite Hh, history_pop by (rewrite last_n_length; lia).
  apply last_n_snoc. lia.
Qed.

Lemma update_user_stats_accounts (done_calls : list (string * Z * speech_analysis))
    (user_stats : gmap Z user_record) (now : string) (v : Z)
    (analysis : speech_analysis) :
  store_accounts done_calls user_stats ->
  exists user_stats',
    update_user_stats user_stats now v analysis = Ok user_stats' /\
    store_accounts (done_calls ++ [(now, v, analysis)]) user_stats'.
Proof.
  intros Hinv.
  destruct (user_stats !! v) as [stats|] eqn:Hv.
  - eexists. split; [by apply update_user_stats_known |].
    intros u. rewrite entries_of_snoc.
    destruct (decide (v = u)) as [<- | Hne].
    + rewrite lookup_insert_eq. specialize (Hinv v). rewrite Hv in Hinv.
      destruct Hinv as [_ Hacc].
      split; [by intros [_ ?]%app_eq_nil |].
      by apply accounts_for_next.
    + rewrite lookup_insert_ne, app_nil_r by done. apply Hinv.
  - eexists. split; [by apply update_user_stats_new |].
    intros u. rewrite entries_of_snoc.
    destruct (decide (v = u)) as [<- | Hne].
    + rewrite lookup_insert_eq. specialize (Hinv v). rewrite Hv in Hinv.
      rewrite Hinv. simpl. split; [done | apply accounts_for_first].
    + rewrite lookup_insert_ne, app_nil_r by done. apply Hinv.
Qed.

Lemma replay_accounts (calls done_calls : list (string * Z * speech_analysis))
    (user_stats : gmap Z user_record) :
  store_accounts done_calls user_stats ->
  exists user_stats',
    replay calls user_stats = Ok user_stats' /\
    store_accounts (done_calls ++ calls) user_stats'.
Proof.
  revert done_calls user_stats.
  induction calls as [|[[now v] analysis] calls IH]; intros done_calls s Hinv.
  { exists s. by rewrite app_nil_r. }
  destruct (update_user_stats_accounts done_calls s now v analysis Hinv)
    as (s1 & Hs1 & Hinv1).
  destruct (IH _ _ Hinv1) as (s' & Hs' & Hinv').
  exists s'. simpl. rewrite Hs1. simpl.
  split; [exact Hs' |]. by rewrite <- app_assoc in Hinv'.
Qed.

(** X8: from the empty [user_stats], any sequence of calls of
    [update_user_stats] succeeds, and afterwards a user has a record
    exactly when one of the calls was theirs; the record counts their
    calls, sums their words per minute and fillers, carries the date of
    their last call and holds in its history the last ten of their
    entries, oldest first. *)
Theorem replay_from_empty (calls : list (string * Z * speech_analysis))
    (user_id : Z) :
  exists user_stats',
    replay calls ∅ = Ok user_stats' /\
    match user_stats' !! user_id with
    | None => entries_of user_id calls = []
    | Some stats =>
        let es := entries_of user_id calls in
        es <> [] /\
        total_analyses stats = len es /\
        total_wpm stats = foldl Qplus 0 (map wpm es) /\
        total_fillers stats = foldl Z.add 0%Z (map fillers es) /\
        last_analysis_date stats = date <$> last es /\
        analyses_history stats = last_n 10 es
    end.
Proof.
  destruct (replay_accounts calls [] ∅) as (s' & Hs' & Hinv).
  { intros u. by rewrite lookup_empty. }
  exists s'. split; [done |]. specialize (Hinv user_id). simpl in Hinv.
  destruct (s' !! user_id); [| done].
  destruct Hinv as [Hne Hacc]. by split.
Qed.

Lemma update_user_stats_updated (user_stats : gmap Z user_record) (now : string)
    (user_id : Z) (analysis : speech_analysis) :
  update_user_stats user_stats now user_id analysis
  = Ok (<[user_id := updated now analysis (user_stats !! user_id)]> user_stats).
Proof.
  destruct (user_stats !! user_id) as [stats|] eqn:Hs.
  - by rewrite (update_user_stats_known _ _ _ _ _ Hs).
  - by rewrite (update_user_stats_new _ _ _ _ Hs).
Qed.

Lemma undated_updated (now now' : string) (analysis : speech_analysis)
    (stats : option user_record) :
  undated (updated now analysis stats) = undated (updated now' analysis stats).
Proof.
  unfold undated, updated. simpl. f_equal.
  unfold len. rewrite !length_app. simpl.
  destruct (10 <? _)%Z; rewrite <- ?skipn_map, !map_app; reflexivity.
Qed.

(** X9: two calls of [update_user_stats] for different users, made in
    either order, succeed and leave every user the same counters and the
    same values in the history; the records of the other users are those
    of before.  The dates depend on the order, each call writing the
    reading of the clock it makes: the stores are the same when both
    readings are, and differ when they are not. *)
Theorem update_order_changes_only_dates (user_stats : gmap Z user_record)
    (first second : string) (user1 user2 : Z)
    (analysis1 analysis2 : speech_analysis) :
  user1 <> user2 ->
  exists stats12 stats21,
    (s ← update_user_stats user_stats first user1 analysis1;
     update_user_stats s second user2 analysis2) = Ok stats12 /\
    (s ← update_user_stats user_stats first user2 analysis2;
     update_user_stats s second user1 analysis1) = Ok stats21 /\
    (forall user_id,
       undated <$> stats12 !! user_id = undated <$> stats21 !! user_id) /\
    (forall user_id, user_id <> user1 -> user_id <> user2 ->
       stats12 !! user_id = user_stats !! user_id /\
       stats21 !! user_id = user_stats !! user_id) /\
    last_analysis_date <$> stats12 !! user1 = Some (Some first) /\
    last_analysis_date <$> stats21 !! user1 = Some (Some second) /\
    last_analysis_date <$> stats12 !! user2 = Some (Some second) /\
    last_analysis_date <$> stats21 !! user2 = Some (Some first) /\
    (first = second -> stats12 = stats21) /\
    (first <> second -> stats12 <> stats21).
Proof.
  intros Hne.
  rewrite !update_user_stats_updated. simpl.
  rewrite !update_user_stats_updated.
  rewrite !lookup_insert_ne by done.
  set (r1 := user_stats !! user1). set (r2 := user_stats !! user2).
  eexists _, _. split; [reflexivity |]. split; [reflexivity |].
  assert (L1 : forall t t' : string,
            (<[user2 := updated t' analysis2 r2]>
               (<[user1 := updated t analysis1 r1]> user_stats)) !! user1
            = Some (updated t analysis1 r1)).
  { intros t t'. by rewrite lookup_insert_ne, lookup_insert_eq. }
  assert (L2 : forall t t' : string,
            (<[user1 := updated t' analysis1 r1]>
               (<[user2 := updated t analysis2 r2]> user_stats)) !! user2
            = Some (updated t analysis2 r2)).
  { intros t t'. by rewrite lookup_insert_ne, lookup_insert_eq. }
  split; [| split; [| split; [| split; [| split; [| split; [| split]]]]]].
  - intros user_id.
    destruct (decide (user_id = user1)) as [-> | H1].
    { rewrite L1, lookup_insert_eq. simpl. f_equal. apply undated_updated. }
    destruct (decide (user_id = user2)) as [-> | H2].
    { rewrite L2, lookup_insert_eq. simpl. f_equal. apply undated_updated. }
    by rewrite !lookup_insert_ne.
  - intros user_id H1 H2. by rewrite !lookup_insert_ne.
  - by rewrite L1.
  - by rewrite lookup_insert_eq.
  - by rewrite lookup_insert_eq.
  - by rewrite L2.
  - intros <-. by apply insert_insert_ne.
  - intros Hdiff E.
    assert (E1 : (<[user2 := updated second analysis2 r2]>
                    (<[user1 := updated first analysis1 r1]> user_stats)) !! user1
                 = (<[user1 := updated second analysis1 r1]>
                      (<[user2 := updated first analysis2 r2]> user_stats)) !! user1)
      by (by rewrite E).
    rewrite L1, lookup_insert_eq in E1. injection E1 as E1. done.
Qed.

(** ** The language of a transcript ([detect_language]) *)

Lemma filter_length_app {A : Type} (f : A -> bool) (l : list A) (x : A) :
  len (List.filter f (l ++ [x]))
  = (len (List.filter f l) + (if f x then 1 else 0))%Z.
Proof.
  unfold len. rewrite List.filter_app, length_app. simpl.
  destruct (f x); simpl; lia.
Qed.

Lemma filter_length_le {A : Type} (f : A -> bool) (l : list A) :
  (0 <= len (List.filter f l) <= len l)%Z.
Proof. unfold len. pose proof (List.filter_length_le f l). lia. Qed.

Lemma latin_not_cyrillic (c : N) : is_latin c = true -> is_cyrillic c = false.
Proof.
  unfold is_latin, is_cyrillic.
  repeat match goal with
  | |- context [(?a <=? ?b)%N] => destruct (N.leb_spec a b)
  | |- context [(?a =? ?b)%N] => destruct (N.eqb_spec a b)
  end; simpl; try done; lia.
Qed.

Lemma filter_length_disjoint (l : list N) :
  (len (List.filter is_cyrillic l) + len (List.filter is_latin l) <= len l)%Z.
Proof.
  unfold len. induction l as [|c l IH]; simpl; [lia |].
  destruct (is_latin c) eqn:E.
  - rewrite (latin_not_cyrillic c E). simpl. lia.
  - destruct (is_cyrillic c); simpl; lia.
Qed.

(** The comparison with [len(text) * 0.3], in integers. *)
Lemma detect_language_ru (text : list N) :
  detect_language text = "ru"%string
  <-> (len (List.filter is_latin text) < len (List.filter is_cyrillic text))%Z
      /\ (3 * len text < 10 * len (List.filter is_cyrillic text))%Z.
Proof.
  unfold detect_language.
  set (c := len (List.filter is_cyrillic text)).
  set (l := len (List.filter is_latin text)).
  assert (Hq : Qltb (inject_Z (len text) * 0.3) (inject_Z c) = true
               <-> (3 * len text < 10 * c)%Z).
  { rewrite Qltb_iff. unfold Qlt. simpl. lia. }
  destruct (l <? c)%Z eqn:E1; [apply Z.ltb_lt in E1 | apply Z.ltb_ge in E1];
    destruct (Qltb _ _) eqn:E2; simpl; split; try discriminate; try done.
  - split; [done | by apply Hq].
  - intros [_ Hc]. apply Hq in Hc. congruence.
  - lia.
  - lia.
Qed.

(** X10: [detect_language] answers ['ru'] exactly when the Cyrillic
    letters are more than the Latin letters and more than 30% of all the
    characters, and ['en'] otherwise: a text without Cyrillic letter, the
    empty text among them, is English, and a text of Cyrillic letters only
    is Russian. *)
Theorem detect_language_rule (text : list N) :
  let cyrillic := len (List.filter is_cyrillic text) in
  let latin := len (List.filter is_latin text) in
  (detect_language text = "ru"%string
   <-> (latin < cyrillic)%Z /\ (3 * len text < 10 * cyrillic)%Z) /\
  (detect_language text = "en"%string
   <-> (cyrillic <= latin)%Z \/ (10 * cyrillic <= 3 * len text)%Z) /\
  (cyrillic = 0%Z -> detect_language text = "en"%string) /\
  (text <> [] -> cyrillic = len text -> detect_language text = "ru"%string).
Proof.
  intros cyrillic latin.
  pose proof (detect_language_ru text) as Hru. fold cyrillic latin in Hru.
  pose proof (filter_length_disjoint text) as Hd. fold cyrillic latin in Hd.
  pose proof (filter_length_le is_latin text) as Hl. fold latin in Hl.
  assert (Hen : detect_language text = "en"%string
                <-> detect_language text <> "ru"%string).
  { unfold detect_language. destruct (_ && _); split; try done. }
  split; [exact Hru |]. split; [rewrite Hen, Hru; lia |].
  split.
  - intros H0. apply Hen. rewrite Hru. lia.
  - intros Hne Hall. apply Hru.
    assert (0 < len text)%Z by (unfold len; destruct text; [done | simpl; lia]).
    lia.
Qed.

(** X11: one more Cyrillic letter at the end of a text found Russian
    leaves it Russian, and one more character that is not a Cyrillic
    letter at the end of a text found English leaves it English. *)
Theorem detect_language_monotone (text : list N) (c : N) :
  (is_cyrillic c = true -> detect_language text = "ru"%string ->
   detect_language (text ++ [c]) = "ru"%string) /\
  (is_cyrillic c = false -> detect_language text = "en"%string ->
   detect_language (text ++ [c]) = "en"%string).
Proof.
  assert (Hen : forall t, detect_language t = "en"%string
                          <-> detect_language t <> "ru"%string).
  { intros t. unfold detect_language. destruct (_ && _); split; try done. }
  rewrite !Hen, !detect_language_ru, !filter_length_app.
  assert (Hlen : len (text ++ [c]) = (len text + 1)%Z).
  { unfold len. rewrite length_app. simpl. lia. }
  rewrite Hlen.
  split; intros Hc; rewrite Hc.
  - destruct (is_latin c) eqn:El.
    + apply latin_not_cyrillic in El. congruence.
    + lia.
  - destruct (is_latin c); lia.
Qed.

(** ** The parts of a long reply ([audio_handler]) *)

Lemma range_from_chunks {A : Type} (l : list A) (step count start : nat) :
  (length l <= start + count * step)%nat ->
  concat (map (fun i => py_slice l i (i + step)) (range_from start step count))
  = drop start l.
Proof.
  revert start. induction count as [|count IH]; intros start Hl; simpl.
  { symmetry. apply drop_ge. lia. }
  rewrite IH by lia. unfold py_slice.
  replace (start + step - start)%nat with step by lia.
  rewrite <- (drop_drop l step start). apply take_drop.
Qed.

Lemma range_from_elem (step count start i : nat) :
  i ∈ range_from start step count ->
  exists k, (k < count)%nat /\ i = (start + k * step)%nat.
Proof.
  revert start. induction count as [|count IH]; intros start; simpl.
  { by intros ?%elem_of_nil. }
  rewrite elem_of_cons. intros [-> | Hi].
  - exists 0%nat. split; lia.
  - apply IH in Hi as (k & Hk & ->). exists (S k). split; [lia |]. simpl. lia.
Qed.

(** X12: the parts [audio_handler] sends make up the response when put
    end to end, each has at most 4096 characters, and none is empty unless
    the response is. *)
Theorem reply_parts_partition {A : Type} (response : list A) :
  concat (reply_parts response) = response /\
  Forall (fun part => (length part <= 4096)%nat) (reply_parts response) /\
  (response <> [] -> Forall (fun part => part <> []) (reply_parts response)).
Proof.
  unfold reply_parts.
  destruct (4096 <? len response)%Z eqn:E;
    [apply Z.ltb_lt in E | apply Z.ltb_ge in E]; unfold len in E.
  - set (n := length response) in *.
    assert (Hq : (n <= (n - 0 + (4096 - 1)) / 4096 * 4096)%nat).
    { pose proof (Nat.div_mod_eq (n - 0 + (4096 - 1)) 4096) as Hdm.
      pose proof (Nat.mod_upper_bound (n - 0 + (4096 - 1)) 4096 ltac:(done)).
      lia. }
    assert (Hq' : (((n - 0 + (4096 - 1)) / 4096 - 1) * 4096 < n)%nat).
    { pose proof (Nat.div_mod_eq (n - 0 + (4096 - 1)) 4096) as Hdm.
      pose proof (Nat.mod_upper_bound (n - 0 + (4096 - 1)) 4096 ltac:(done)).
      lia. }
    split; [| split].
    + unfold py_range. rewrite range_from_chunks by (fold n; lia). done.
    + apply Forall_forall. intros part Hp.
      apply list_elem_of_fmap in Hp as (i & -> & _).
      unfold py_slice. rewrite length_take. lia.
    + intros _. apply Forall_forall. intros part Hp.
      apply list_elem_of_fmap in Hp as (i & -> & Hi).
      apply range_from_elem in Hi as (k & Hk & ->).
      assert (Hi' : (0 + k * 4096 < n)%nat) by nia.
      unfold py_slice. intros Hnil.
      apply (f_equal length) in Hnil.
      rewrite length_take, length_drop in Hnil. simpl in Hnil. fold n in Hnil. lia.
  - simpl. rewrite app_nil_r. split; [done |]. split.
    + constructor; [lia | constructor].
    + intros Hne. by constructor.
Qed.

(** ** What [sanitize_html] removes and keeps *)

Lemma bytes_app (s1 s2 : string) : bytes (s1 ++ s2) = bytes s1 ++ bytes s2.
Proof.
  unfold bytes. induction s1 as [|c s1 IH]; simpl; [done | by rewrite IH].
Qed.

Lemma string_of_bytes_app (l1 l2 : list ascii) :
  string_of_list_ascii (l1 ++ l2)
  = (string_of_list_ascii l1 ++ string_of_list_ascii l2)%string.
Proof. induction l1 as [|c l1 IH]; simpl; [done | by rewrite IH]. Qed.

Lemma string_app_assoc (a b c : string) :
  ((a ++ b) ++ c = a ++ (b ++ c))%string.
Proof.
  induction a as [|x a IH]; [reflexivity |].
  change (String x ((a ++ b) ++ c) = String x (a ++ (b ++ c)))%string.
  by rewrite IH.
Qed.

Lemma byte_in_eq (n : N) (c : ascii) :
  (n < 256)%N -> byte_in n n c = true <-> c = ascii_of_N n.
Proof.
  intros Hn. unfold byte_in. rewrite andb_true_iff, !N.leb_le. split.
  - intros [H1 H2]. assert (E : N_of_ascii c = n) by lia.
    by rewrite <- E, ascii_N_embedding.
  - intros ->. rewrite N_ascii_embedding by done. lia.
Qed.

Lemma byte_in_ne (n : N) (c : ascii) :
  (n < 256)%N -> c <> ascii_of_N n -> byte_in n n c = false.
Proof.
  intros Hn Hc. destruct (byte_in n n c) eqn:E; [| done].
  by apply byte_in_eq in E.
Qed.

(** A stretch of text without [<] is copied. *)
Lemma sanitize_copy (pre rest : list ascii) :
  "<"%char ∉ pre ->
  sanitize_from false (pre ++ rest) = pre ++ sanitize_from false rest.
Proof.
  induction pre as [|c pre IH]; intros Hpre; simpl; [done |].
  apply not_elem_of_cons in Hpre as [Hc Hpre].
  rewrite (byte_in_ne 60 c) by done. simpl. by rewrite IH.
Qed.

(** Once a match has started, the text is skipped to its first [>]. *)
Lemma sanitize_skip (body rest : list ascii) :
  ">"%char ∉ body ->
  sanitize_from true (body ++ ">"%char :: rest) = sanitize_from false rest.
Proof.
  induction body as [|c body IH]; intros Hbody; simpl; [done |].
  apply not_elem_of_cons in Hbody as [Hc Hbody].
  rewrite (byte_in_ne 62 c) by done. by apply IH.
Qed.

Lemma closes_app (body rest : list ascii) :
  ">"%char ∉ body ->
  closes (body ++ ">"%char :: rest)
  = negb (bool_decide (ascii_of_N 10 ∈ body)).
Proof.
  induction body as [|c body IH]; intros Hbody; simpl; [done |].
  apply not_elem_of_cons in Hbody as [Hc Hbody].
  rewrite (byte_in_ne 62 c) by done.
  destruct (byte_in 10 10 c) eqn:E.
  - apply byte_in_eq in E as ->; [| done].
    by rewrite bool_decide_eq_true_2 by (by left).
  - rewrite IH by done. f_equal. apply bool_decide_ext.
    rewrite elem_of_cons. split; [by right |].
    intros [<- | ?]; [| done]. by rewrite (proj2 (byte_in_eq 10 _ ltac:(done))) in E.
Qed.

Lemma plain_start_ahead (c : ascii) (r : list ascii) :
  plain_start c = true ->
  allowed_ahead (c :: r) = false /\ alnum_ahead (c :: r) = true
  /\ byte_in 47 47 c = false.
Proof.
  destruct c as [[] [] [] [] [] [] [] []]; try discriminate;
    intros _; repeat split; reflexivity.
Qed.

Lemma allowed_start_ahead (c : ascii) (r : list ascii) :
  allowed_start c = true ->
  allowed_ahead (c :: r) = true /\ byte_in 47 47 c = false.
Proof.
  destruct c as [[] [] [] [] [] [] [] []]; try discriminate;
    intros _; split; reflexivity.
Qed.

Lemma tag_ahead_slash (r : list ascii) :
  tag_ahead ("/"%char :: r) = negb (allowed_ahead r) && alnum_ahead r && closes r.
Proof. reflexivity. Qed.

Lemma tag_ahead_no_slash (c : ascii) (r : list ascii) :
  byte_in 47 47 c = false ->
  tag_ahead (c :: r)
  = negb (allowed_ahead (c :: r)) && alnum_ahead (c :: r) && closes (c :: r).
Proof. intros Hc. unfold tag_ahead. by rewrite Hc. Qed.

(** The pattern matches at the [<] of a one-line tag with a plain name,
    with or without the [/]. *)
Lemma tag_ahead_plain (slash : bool) (c : ascii) (body rest : list ascii) :
  plain_start c = true -> ">"%char ∉ body -> ascii_of_N 10 ∉ body ->
  tag_ahead ((if slash then ["/"%char] else []) ++ c :: body ++ ">"%char :: rest)
  = true.
Proof.
  intros Hc Hgt Hnl.
  destruct (plain_start_ahead c (body ++ ">"%char :: rest) Hc) as (Ha & Hn & Hs).
  assert (Hcl : closes (c :: body ++ ">"%char :: rest) = true).
  { change (c :: body ++ ">"%char :: rest) with ((c :: body) ++ ">"%char :: rest).
    rewrite closes_app.
    - rewrite bool_decide_eq_false_2; [done |].
      rewrite elem_of_cons. intros [E | ?]; [| done].
      rewrite <- E in Hc. discriminate.
    - rewrite elem_of_cons. intros [E | ?]; [| done].
      rewrite <- E in Hc. discriminate. }
  destruct slash; simpl app.
  - rewrite tag_ahead_slash. by rewrite Ha, Hn, Hcl.
  - rewrite tag_ahead_no_slash by done. by rewrite Ha, Hn, Hcl.
Qed.

Lemma sanitize_html_unfold (text : string) :
  bytes (sanitize_html text) = sanitize_from false (bytes text).
Proof. unfold sanitize_html, bytes. apply list_ascii_of_string_of_list_ascii. Qed.

Lemma string_of_bytes (s : string) : string_of_list_ascii (bytes s) = s.
Proof. apply string_of_list_ascii_of_string. Qed.

(** X13: [sanitize_html] only deletes: the text it returns is the text it
    was given with some stretches left out, in the same order; and a text
    without [<] comes back unchanged. *)
Theorem sanitize_html_only_deletes (text : string) :
  bytes (sanitize_html text) `sublist_of` bytes text /\
  ("<"%char ∉ bytes text -> sanitize_html text = text).
Proof.
  split.
  - rewrite sanitize_html_unfold.
    assert (Hgen : forall s skipping, sanitize_from skipping s `sublist_of` s).
    { induction s as [|c s IH]; intros skipping; simpl; [done |].
      destruct skipping.
      - destruct (byte_in 62 62 c); by apply sublist_cons.
      - destruct (byte_in 60 60 c && tag_ahead s);
          [by apply sublist_cons | by apply sublist_skip]. }
    apply Hgen.
  - intros Hlt. unfold sanitize_html. fold (bytes text).
    rewrite <- (app_nil_r (bytes text)), sanitize_copy by done.
    simpl. rewrite app_nil_r. apply string_of_bytes.
Qed.

Lemma bytes_tag (slash : bool) (c : ascii) (body rest : string) :
  bytes ("<" ++ (if slash then "/" else EmptyString) ++ String c body ++ ">" ++ rest)
  = "<"%char :: (if slash then ["/"%char] else [])
    ++ c :: bytes body ++ ">"%char :: bytes rest.
Proof.
  destruct slash; simpl; unfold bytes; simpl; repeat f_equal;
    apply (bytes_app body (String ">" rest)).
Qed.

Lemma sanitize_removes (slash : bool) (c : ascii) (body rest : list ascii) :
  plain_start c = true -> ">"%char ∉ body -> ascii_of_N 10 ∉ body ->
  sanitize_from false
    ("<"%char :: (if slash then ["/"%char] else []) ++ c :: body ++ ">"%char :: rest)
  = sanitize_from false rest.
Proof.
  intros Hc Hgt Hnl. simpl sanitize_from at 1.
  change (byte_in 60 60 "<"%char) with true.
  rewrite (tag_ahead_plain slash c body rest) by done. simpl andb. cbv iota.
  replace ((if slash then ["/"%char] else []) ++ c :: body ++ ">"%char :: rest)
    with (((if slash then ["/"%char] else []) ++ c :: body) ++ ">"%char :: rest)
    by (by rewrite <- app_assoc).
  apply sanitize_skip.
  rewrite elem_of_app, elem_of_cons. intros [Hs | [E' | ?]]; [| | done].
  - destruct slash; [| by apply elem_of_nil in Hs].
    apply list_elem_of_singleton in Hs. discriminate.
  - rewrite <- E' in Hc. discriminate.
Qed.

(** X14: a tag on one line whose name starts with a letter or digit other
    than a, b, c, i, p, u is removed, opening or closing, whatever follows
    its first character up to the next [>]; the rest of the text is then
    sanitized the same way. *)
Theorem sanitize_html_removes_plain_tags (slash : bool) (c : ascii)
    (body rest : string) :
  plain_start c = true ->
  ">"%char ∉ bytes body -> ascii_of_N 10 ∉ bytes body ->
  sanitize_html
    ("<" ++ (if slash then "/" else EmptyString) ++ String c body ++ ">" ++ rest)
  = sanitize_html rest.
Proof.
  intros Hc Hgt Hnl. unfold sanitize_html. f_equal.
  fold (bytes ("<" ++ (if slash then "/" else EmptyString) ++ String c body ++ ">" ++ rest)).
  rewrite bytes_tag. by apply sanitize_removes.
Qed.

Lemma sanitize_keep_lt (s : list ascii) :
  tag_ahead s = false ->
  sanitize_from false ("<"%char :: s) = "<"%char :: sanitize_from false s.
Proof.
  intros Hs.
  change (sanitize_from false ("<"%char :: s))
    with (if byte_in 60 60 "<"%char && tag_ahead s then sanitize_from true s
          else "<"%char :: sanitize_from false s).
  by rewrite Hs, andb_false_r.
Qed.

Lemma allowed_start_byte (c : ascii) :
  allowed_start c = true ->
  c <> "<"%char /\ c <> ">"%char /\ c <> ascii_of_N 10.
Proof.
  intros Hc. repeat split; intros ->; discriminate Hc.
Qed.

(** X15: where only text without [<] comes before it, a tag whose name
    starts with a, b, i or u in either case, opening or closing, is kept
    whatever the name and the attributes are: the text before it, the tag
    and the text up to the next [<] are returned as they are.  It is not
    kept everywhere: inside a tag that is removed, open on the same line,
    it is removed with that tag. *)
Theorem sanitize_html_keeps_abiu_tags (slash : bool) (c : ascii)
    (pre tag rest : string) :
  allowed_start c = true ->
  "<"%char ∉ bytes pre -> "<"%char ∉ bytes tag ->
  sanitize_html
    (pre ++ "<" ++ (if slash then "/" else EmptyString) ++ String c tag ++ rest)
  = (pre ++ "<" ++ (if slash then "/" else EmptyString) ++ String c tag
     ++ sanitize_html rest)%string /\
  forall (c0 : ascii) (body0 : string),
    plain_start c0 = true ->
    ">"%char ∉ bytes body0 -> ascii_of_N 10 ∉ bytes body0 ->
    ">"%char ∉ bytes tag -> ascii_of_N 10 ∉ bytes tag ->
    sanitize_html
      ("<" ++ String c0 body0 ++ "<" ++ (if slash then "/" else EmptyString)
       ++ String c tag ++ ">" ++ rest)
    = sanitize_html rest.
Proof.
  intros Hc Hpre Hlt. destruct (allowed_start_byte c Hc) as (Hc1 & Hc2 & Hc3).
  split.
  - destruct (allowed_start_ahead c (bytes tag ++ bytes rest) Hc) as [Ha Hs].
    assert (Hb : bytes (pre ++ "<" ++ (if slash then "/" else EmptyString)
                        ++ String c tag ++ rest)
                 = bytes pre
                   ++ "<"%char :: ((if slash then ["/"%char] else []) ++ c :: bytes tag)
                   ++ bytes rest).
    { rewrite !bytes_app. unfold bytes. destruct slash; simpl; by rewrite <- ?app_assoc. }
    unfold sanitize_html at 1.
    fold (bytes (pre ++ "<" ++ (if slash then "/" else EmptyString)
                 ++ String c tag ++ rest)).
    rewrite Hb, sanitize_copy, sanitize_keep_lt, sanitize_copy; [| | | done].
    + change ("<"%char :: ((if slash then ["/"%char] else []) ++ c :: bytes tag)
              ++ sanitize_from false (bytes rest))
        with (["<"%char] ++ ((if slash then ["/"%char] else []) ++ c :: bytes tag)
              ++ sanitize_from false (bytes rest)).
      rewrite !string_of_bytes_app.
      change (string_of_list_ascii (sanitize_from false (bytes rest)))
        with (sanitize_html rest).
      rewrite string_of_bytes. destruct slash; simpl; by rewrite string_of_bytes.
    + rewrite elem_of_app, elem_of_cons. intros [Hsl | [E | ?]]; [| | done].
      * destruct slash; [| by apply elem_of_nil in Hsl].
        apply list_elem_of_singleton in Hsl. discriminate.
      * by rewrite <- E in Hc1.
    + rewrite <- app_assoc. destruct slash; simpl app.
      * rewrite tag_ahead_slash. by rewrite Ha.
      * rewrite tag_ahead_no_slash by done. by rewrite Ha.
  - intros c0 body0 Hc0 Hgt0 Hnl0 Hgt Hnl.
    assert (Hb : bytes ("<" ++ String c0 body0 ++ "<"
                        ++ (if slash then "/" else EmptyString)
                        ++ String c tag ++ ">" ++ rest)
                 = "<"%char :: [] ++ c0
                   :: (bytes body0 ++ "<"%char
                       :: (if slash then ["/"%char] else []) ++ c :: bytes tag)
                   ++ ">"%char :: bytes rest).
    { rewrite !bytes_app. unfold bytes. destruct slash; simpl;
        by rewrite <- ?app_assoc. }
    unfold sanitize_html.
    fold (bytes ("<" ++ String c0 body0 ++ "<"
                 ++ (if slash then "/" else EmptyString)
                 ++ String c tag ++ ">" ++ rest)).
    fold (bytes rest). rewrite Hb. f_equal.
    apply (sanitize_removes false c0); [done | |].
    + rewrite elem_of_app, elem_of_cons, elem_of_app, elem_of_cons.
      intros [? | [? | [Hsl | [E | ?]]]]; try done.
      destruct slash; [| by apply elem_of_nil in Hsl].
      apply list_elem_of_singleton in Hsl. discriminate.
    + rewrite elem_of_app, elem_of_cons, elem_of_app, elem_of_cons.
      intros [? | [? | [Hsl | [E | ?]]]]; try done.
      destruct slash; [| by apply elem_of_nil in Hsl].
      apply list_elem_of_singleton in Hsl. discriminate.
Qed.

(** X16: a tag with a line feed before its [>] is kept, whatever its
    name. *)
Theorem sanitize_html_keeps_broken_tags (body rest : string) :
  "<"%char ∉ bytes body -> ">"%char ∉ bytes body ->
  ascii_of_N 10 ∈ bytes body ->
  sanitize_html ("<" ++ body ++ ">" ++ rest)
  = ("<" ++ body ++ ">" ++ sanitize_html rest)%string.
Proof.
  intros Hlt Hgt Hnl.
  assert (Hb : bytes ("<" ++ body ++ ">" ++ rest)
               = "<"%char :: (bytes body ++ [">"%char]) ++ bytes rest).
  { rewrite !bytes_app. unfold bytes. simpl. by rewrite <- ?app_assoc. }
  assert (Hcl : forall b, ">"%char ∉ b -> ascii_of_N 10 ∈ b ->
                  closes (b ++ ">"%char :: bytes rest) = false).
  { intros b Hb1 Hb2. rewrite closes_app by done.
    by rewrite bool_decide_eq_true_2. }
  assert (Hta : tag_ahead ((bytes body ++ [">"%char]) ++ bytes rest) = false).
  { rewrite <- app_assoc. simpl app.
    destruct (bytes body) as [|c b] eqn:Eb; [by apply elem_of_nil in Hnl |].
    destruct (byte_in 47 47 c) eqn:Ec.
    - apply byte_in_eq in Ec as ->; [| done]. simpl app.
      rewrite tag_ahead_slash, Hcl; [by rewrite andb_false_r | |].
      + by apply not_elem_of_cons in Hgt as [_ ?].
      + apply elem_of_cons in Hnl as [? | ?]; [discriminate | done].
    - simpl app. rewrite tag_ahead_no_slash by done.
      change (c :: b ++ ">"%char :: bytes rest)
        with ((c :: b) ++ ">"%char :: bytes rest).
      rewrite Hcl by done. by rewrite andb_false_r. }
  unfold sanitize_html at 1. fold (bytes ("<" ++ body ++ ">" ++ rest)).
  rewrite Hb, (sanitize_keep_lt _ Hta), sanitize_copy.
  - change ("<"%char :: (bytes body ++ [">"%char]) ++ sanitize_from false (bytes rest))
      with (["<"%char] ++ (bytes body ++ [">"%char]) ++ sanitize_from false (bytes rest)).
    rewrite !string_of_bytes_app, string_of_bytes.
    change (string_of_list_ascii (sanitize_from false (bytes rest)))
      with (sanitize_html rest).
    simpl. by rewrite string_app_assoc.
  - rewrite elem_of_app, list_elem_of_singleton. intros [? | ?]; [done | discriminate].
Qed.

(** X17: the removal is made in one pass, and what it leaves can be a tag
    it would remove: a [<] followed by a removed tag stays in front of the
    rest of the text, so the text [<<x>script>] comes back as
    [<script>]. *)
Theorem sanitize_html_can_leave_a_tag (slash : bool) (c : ascii)
    (body rest : string) :
  plain_start c = true ->
  ">"%char ∉ bytes body -> ascii_of_N 10 ∉ bytes body ->
  sanitize_html
    ("<<" ++ (if slash then "/" else EmptyString) ++ String c body ++ ">" ++ rest)
  = ("<" ++ sanitize_html rest)%string.
Proof.
  intros Hc Hgt Hnl. unfold sanitize_html at 1.
  fold (bytes ("<<" ++ (if slash then "/" else EmptyString) ++ String c body ++ ">" ++ rest)).
  change ("<<" ++ (if slash then "/" else EmptyString) ++ String c body ++ ">" ++ rest)%string
    with (String "<" ("<" ++ (if slash then "/" else EmptyString) ++ String c body
                      ++ ">" ++ rest)).
  change (bytes (String "<" ?s)) with ("<"%char :: bytes s).
  rewrite bytes_tag, sanitize_keep_lt by reflexivity.
  rewrite sanitize_removes by done. reflexivity.
Qed.

(** ** The handlers and the language of a user *)

Lemma translations_supported (lang : string) :
  (exists t, translations lang = Ok t) <-> lang = "ru"%string \/ lang = "en"%string.
Proof.
  unfold translations, TRANSLATIONS.
  destruct (decide (lang = "ru"%string)) as [-> | Hru];
    [split; [by left | by eexists] |].
  destruct (decide (lang = "en"%string)) as [-> | Hen];
    [split; [by right | by eexists] |].
  rewrite lookup_insert_ne, lookup_singleton_ne by done.
  split; [by intros [t ?] | by intros [? | ?]].
Qed.

Lemma translations_unsupported (lang : string) :
  lang <> "ru"%string -> lang <> "en"%string -> translations lang = Raise KeyError.
Proof.
  intros Hru Hen. unfold translations, TRANSLATIONS.
  by rewrite lookup_insert_ne, lookup_singleton_ne.
Qed.

Lemma translations_cases (lang : string) :
  (exists t, translations lang = Ok t /\ (lang = "ru"%string \/ lang = "en"%string))
  \/ (translations lang = Raise KeyError
      /\ lang <> "ru"%string /\ lang <> "en"%string).
Proof.
  destruct (decide (lang = "ru"%string)) as [-> | Hru];
    [left; eexists; split; [reflexivity | by left] |].
  destruct (decide (lang = "en"%string)) as [-> | Hen];
    [left; eexists; split; [reflexivity | by right] |].
  right. split; [by apply translations_unsupported | done].
Qed.

Lemma py_div_nonzero (a : Q) (n : Z) :
  n <> 0%Z -> py_div a (inject_Z n) = Ok (a / inject_Z n).
Proof.
  intros Hn. unfold py_div.
  destruct (Qeq_bool (inject_Z n) 0) eqn:E; [| done].
  apply Qeq_bool_eq in E. unfold Qeq in E. simpl in E. lia.
Qed.

Lemma stats_handler_supported (user_languages : gmap Z string)
    (user_stats : gmap Z user_record) (user_id : Z) (t : menu_labels) :
  translations (user_language user_languages user_id) = Ok t ->
  let lang := user_language user_languages user_id in
  stats_handler user_languages user_stats user_id
  = match user_stats !! user_id with
    | None => Ok [reply_text (entry lang "stats_empty") lang]
    | Some stats =>
        if (total_analyses stats =? 0)%Z then
          Ok [reply_text (entry lang "stats_empty") lang]
        else
          Ok [reply_text
                (statistics lang (total_analyses stats)
                   (py_round (total_wpm stats / inject_Z (total_analyses stats)) 1)
                   (py_round (inject_Z (total_fillers stats)
                              / inject_Z (total_analyses stats)) 1)
                   (last_analysis_date stats)
                   (enumerate_from 1 (last_n 5 (analyses_history stats))))
                lang]
    end.
Proof.
  intros Ht lang. unfold stats_handler. rewrite Ht. simpl. fold lang.
  destruct (user_stats !! user_id) as [stats|]; [| done].
  destruct (total_analyses stats =? 0)%Z eqn:E; [done |].
  apply Z.eqb_neq in E. by rewrite !py_div_nonzero.
Qed.

Lemma translations_labels (lang : string) (t : menu_labels) :
  TRANSLATIONS !! lang = Some t ->
  TRANSLATIONS !! "ru"%string = Some t \/ TRANSLATIONS !! "en"%string = Some t.
Proof.
  intros Ht.
  destruct (decide (lang = "ru"%string)) as [-> | Hru]; [by left |].
  destruct (decide (lang = "en"%string)) as [-> | Hen]; [by right |].
  unfold TRANSLATIONS in Ht.
  by rewrite lookup_insert_ne, lookup_singleton_ne in Ht.
Qed.

Lemma translations_lookup (lang : string) (t : menu_labels) :
  translations lang = Ok t -> TRANSLATIONS !! lang = Some t.
Proof.
  unfold translations. by destruct (TRANSLATIONS !! lang); intros [= ->].
Qed.

Lemma eqb_other (text label : string) (rest : list string) :
  text ∉ label :: rest -> String.eqb text label = false /\ text ∉ rest.
Proof.
  intros Hn. apply not_elem_of_cons in Hn as [Hn Hr].
  split; [by apply String.eqb_neq | done].
Qed.

(** X18: when the language stored for the user is one of [TRANSLATIONS],
    no handler of the menu raises: [help_handler], [stats_handler],
    [tips_handler] and [settings_handler] send one message each
    ([stats_handler] whatever the counters of the user are: it never
    divides by zero), and [text_menu_handler] sends at most one, and none
    for a text that is no label of a button.  When the language is any
    other string, the five handlers raise [KeyError]. *)
Theorem handlers_fail_on_unknown_language (user_languages : gmap Z string)
    (user_stats : gmap Z user_record) (user_id : Z) (text : string) :
  let lang := user_language user_languages user_id in
  (lang = "ru"%string \/ lang = "en"%string ->
   help_handler user_languages user_id
   = Ok [reply_text (entry lang "help_text") lang] /\
   (exists m, stats_handler user_languages user_stats user_id
              = Ok [reply_text m lang]) /\
   tips_handler user_languages user_id
   = Ok [reply_text (entries lang "tips_title" "tips_content") lang] /\
   settings_handler user_languages user_id
   = Ok [reply_inline (entry lang "settings_title") ["change_lang"; "back_to_menu"]] /\
   (exists actions,
      text_menu_handler user_languages user_stats user_id text = Ok actions /\
      (length actions <= 1)%nat) /\
   ((forall l t, TRANSLATIONS !! l = Some t ->
       text ∉ [btn_help t; btn_stats t; btn_tips t; btn_settings t;
               btn_send_audio t]) ->
    text_menu_handler user_languages user_stats user_id text = Ok [])) /\
  (lang <> "ru"%string -> lang <> "en"%string ->
   Forall (fun outcome => outcome = Raise KeyError)
     [help_handler user_languages user_id;
      stats_handler user_languages user_stats user_id;
      tips_handler user_languages user_id;
      settings_handler user_languages user_id;
      text_menu_handler user_languages user_stats user_id text]).
Proof.
  intros lang. split.
  - intros Hlang. apply translations_supported in Hlang as [t Ht].
    assert (Hhelp : help_handler user_languages user_id
                    = Ok [reply_text (entry lang "help_text") lang]).
    { unfold help_handler. fold lang. by rewrite Ht. }
    assert (Hstats : exists m, stats_handler user_languages user_stats user_id
                               = Ok [reply_text m lang]).
    { rewrite (stats_handler_supported _ _ _ t Ht). fold lang.
      destruct (user_stats !! user_id) as [stats|]; [| by eexists].
      destruct (total_analyses stats =? 0)%Z; by eexists. }
    assert (Htips : tips_handler user_languages user_id
                    = Ok [reply_text (entries lang "tips_title" "tips_content") lang]).
    { unfold tips_handler. fold lang. by rewrite Ht. }
    assert (Hset : settings_handler user_languages user_id
                   = Ok [reply_inline (entry lang "settings_title")
                           ["change_lang"; "back_to_menu"]]).
    { unfold settings_handler. fold lang. by rewrite Ht. }
    split; [done |]. split; [done |]. split; [done |]. split; [done |]. split.
    + destruct Hstats as [m Hm].
      unfold text_menu_handler. fold lang. rewrite Ht. simpl.
      rewrite Hhelp, Hm, Htips, Hset.
      repeat (match goal with |- context [if ?b then _ else _] => destruct b end;
              [eexists; split; [reflexivity | simpl; lia] |]).
      eexists; split; [reflexivity | simpl; lia].
    + intros Hno.
      pose proof (Hno "ru"%string _ eq_refl) as Hru.
      pose proof (Hno "en"%string _ eq_refl) as Hen.
      pose proof (Hno lang t (translations_lookup lang t Ht)) as Hown.
      simpl in Hru, Hen.
      repeat (apply eqb_other in Hru as [? Hru]).
      repeat (apply eqb_other in Hen as [? Hen]).
      repeat (apply eqb_other in Hown as [? Hown]).
      unfold text_menu_handler. fold lang. rewrite Ht. simpl.
      repeat match goal with E : String.eqb text _ = false |- _ =>
               rewrite E; clear E end.
      reflexivity.
  - intros Hru Hen. pose proof (translations_unsupported lang Hru Hen) as Ht.
    repeat constructor.
    + unfold help_handler. fold lang. by rewrite Ht.
    + unfold stats_handler. fold lang. by rewrite Ht.
    + unfold tips_handler. fold lang. by rewrite Ht.
    + unfold settings_handler. fold lang. by rewrite Ht.
    + unfold text_menu_handler. fold lang. by rewrite Ht.
Qed.

Lemma split_from_head (sep : ascii) (cur s : list ascii) :
  exists piece more, split_from sep cur s = piece :: more.
Proof.
  revert cur. induction s as [|c s IH]; intros cur; simpl; [by eexists _, _ |].
  destruct (Ascii.eqb c sep); [by eexists _, _ | apply IH].
Qed.

Lemma split_from_no_sep (sep : ascii) (cur s : list ascii) :
  sep ∉ s -> split_from sep cur s = [string_of_list_ascii (rev cur ++ s)].
Proof.
  revert cur. induction s as [|c s IH]; intros cur Hs; simpl.
  { by rewrite app_nil_r. }
  apply not_elem_of_cons in Hs as [Hc Hs].
  assert (E : Ascii.eqb c sep = false) by (apply Ascii.eqb_neq; congruence).
  rewrite E, IH by done. simpl. by rewrite <- app_assoc.
Qed.

Lemma language_data (rest : string) :
  String.eqb ("lang_" ++ rest) "change_lang" = false /\
  String.prefix "lang_" ("lang_" ++ rest) = true /\
  py_split "_" ("lang_" ++ rest) = "lang"%string :: py_split "_" rest.
Proof.
  split; [reflexivity |]. split; [by destruct rest | reflexivity].
Qed.

(** X19: on the callback data [lang_] followed by any text,
    [language_callback] takes as language what comes before the next
    underscore (there is always such a piece: no [IndexError]) and stores
    it for the user before it looks it up in [TRANSLATIONS]: for [ru] and
    [en] it answers with the two messages, and for any other code it
    raises [KeyError] with the code already stored.  The languages of the
    other users are not touched. *)
Theorem language_callback_stores_before_lookup (user_languages : gmap Z string)
    (user_id : Z) (rest : string) :
  exists code more,
    py_split "_" rest = code :: more /\
    ("_"%char ∉ bytes rest -> code = rest) /\
    (language_callback user_languages user_id ("lang_" ++ rest)).1
    = <[user_id := code]> user_languages /\
    (code = "ru"%string \/ code = "en"%string ->
     (language_callback user_languages user_id ("lang_" ++ rest)).2
     = Ok [edit_message_text (entry code "language_selected") [];
           send_message user_id (written "how_to_start" (String.eqb code "ru"))
             code]) /\
    (code <> "ru"%string -> code <> "en"%string ->
     (language_callback user_languages user_id ("lang_" ++ rest)).2
     = Raise KeyError).
Proof.
  destruct (split_from_head "_" [] (list_ascii_of_string rest))
    as (code & more & Hsplit).
  fold (py_split "_" rest) in Hsplit.
  destruct (language_data rest) as (Hne & Hpre & Hdata).
  exists code, more. split; [done |]. split.
  { intros Hno. unfold py_split in Hsplit.
    rewrite split_from_no_sep in Hsplit by done. simpl in Hsplit.
    injection Hsplit as <- _. apply string_of_list_ascii_of_string. }
  unfold language_callback. rewrite Hne, Hpre, Hdata, Hsplit.
  unfold index. simpl. split; [done |]. split.
  - intros Hcode. apply translations_supported in Hcode as [t Ht].
    by rewrite Ht.
  - intros Hru Hen. by rewrite translations_unsupported.
Qed.

(** X20: what [stats_handler] answers after a run of the bot from the
    empty stores, for a user of a supported language whose audio was
    analysed at least once: the number of their analyses, the averages of
    their words per minute and fillers rounded to one decimal, the date of
    the last analysis, and their last five entries numbered from 1,
    oldest first. *)
Theorem stats_after_replay (calls : list (string * Z * speech_analysis))
    (user_languages : gmap Z string) (user_id : Z) :
  let lang := user_language user_languages user_id in
  let es := entries_of user_id calls in
  lang = "ru"%string \/ lang = "en"%string ->
  es <> [] ->
  exists user_stats,
    replay calls ∅ = Ok user_stats /\
    stats_handler user_languages user_stats user_id
    = Ok [reply_text
            (statistics lang (len es)
               (py_round (foldl Qplus 0 (map wpm es) / inject_Z (len es)) 1)
               (py_round (inject_Z (foldl Z.add 0%Z (map fillers es))
                          / inject_Z (len es)) 1)
               (date <$> last es)
               (enumerate_from 1 (last_n 5 es)))
            lang].
Proof.
  intros lang es Hlang Hes.
  destruct (replay_accounts calls [] ∅) as (s' & Hs' & Hinv).
  { intros u. by rewrite lookup_empty. }
  exists s'. split; [done |].
  apply translations_supported in Hlang as [t Ht].
  rewrite (stats_handler_supported _ _ _ t Ht). fold lang.
  specialize (Hinv user_id). simpl in Hinv. fold es in Hinv.
  destruct (s' !! user_id) as [stats|]; [| done].
  destruct Hinv as (_ & Hn & Hw & Hf & Hd & Hh).
  assert (Hpos : (0 < len es)%Z).
  { unfold len. destruct es; [done | simpl; lia]. }
  assert (E : (total_analyses stats =? 0)%Z = false) by (apply Z.eqb_neq; lia).
  rewrite E, Hn, Hw, Hf, Hd, Hh.
  assert (Hlast : last_n 5 (last_n 10 es) = last_n 5 es).
  { unfold last_n. rewrite length_drop, drop_drop. f_equal. lia. }
  by rewrite Hlast.
Qed.

(** X21: for a user of a supported language, the label of a menu button
    in either language of [TRANSLATIONS] is handled as that button,
    whatever the language of the user is: the help, statistics, tips and
    settings labels call their handler, and the audio label gets the
    invitation to send a recording. *)
Theorem menu_labels_route (user_languages : gmap Z string)
    (user_stats : gmap Z user_record) (user_id : Z) (label_lang : string)
    (labels : menu_labels) :
  let lang := user_language user_languages user_id in
  lang = "ru"%string \/ lang = "en"%string ->
  TRANSLATIONS !! label_lang = Some labels ->
  text_menu_handler user_languages user_stats user_id (btn_help labels)
  = help_handler user_languages user_id /\
  text_menu_handler user_languages user_stats user_id (btn_stats labels)
  = stats_handler user_languages user_stats user_id /\
  text_menu_handler user_languages user_stats user_id (btn_tips labels)
  = tips_handler user_languages user_id /\
  text_menu_handler user_languages user_stats user_id (btn_settings labels)
  = settings_handler user_languages user_id /\
  text_menu_handler user_languages user_stats user_id (btn_send_audio labels)
  = Ok [reply_inline (written "ready_to_analyze" (negb (String.eqb lang "en"))) []].
Proof.
  intros lang Hlang Hlabels.
  assert (Ht : exists t, translations lang = Ok t /\ TRANSLATIONS !! lang = Some t).
  { apply translations_supported in Hlang as [t Ht]. exists t. split; [done |].
    unfold translations in Ht. by destruct (TRANSLATIONS !! lang) as [?|]; simplify_eq. }
  destruct Ht as (t & Ht & Htl).
  assert (Hcases : forall l x, TRANSLATIONS !! l = Some x ->
            x = {| btn_send_audio := btn_send_audio x; btn_stats := btn_stats x;
                   btn_tips := btn_tips x; btn_settings := btn_settings x;
                   btn_help := btn_help x |}
            /\ (TRANSLATIONS !! "ru"%string = Some x
                \/ TRANSLATIONS !! "en"%string = Some x)).
  { intros l x Hx. split; [by destruct x |].
    destruct (decide (l = "ru"%string)) as [-> | Hru]; [by left |].
    destruct (decide (l = "en"%string)) as [-> | Hen]; [by right |].
    unfold TRANSLATIONS in Hx.
    by rewrite lookup_insert_ne, lookup_singleton_ne in Hx. }
  destruct (Hcases _ _ Hlabels) as [_ Hl]. destruct (Hcases _ _ Htl) as [_ Hu].
  unfold text_menu_handler. fold lang. rewrite Ht. simpl.
  destruct Hl as [Hl | Hl]; injection Hl as <-;
    destruct Hu as [Hu | Hu]; injection Hu as <-; simpl;
    (repeat split; try reflexivity).
Qed.

(** ** The theorems at sample inputs *)

Lemma pauses_within_fifteen_percent_witness :
  (forall y, length (@librosa_feature_rms (Sample.recorded short_recording) y 2048 512)
             = S (length y / 512)) /\
  0 < 16000 /\
  exists ps,
    @detect_pauses (Sample.recorded short_recording) short_recording 16000 = Ok ps /\
    ps <> [] /\
    Qsum ps <= 0.15 * librosa_get_duration short_recording 16000.
Proof.
  assert (Hgrid : forall y,
            length (@librosa_feature_rms (Sample.recorded short_recording) y 2048 512)
            = S (length y / 512)).
  { intros y. apply (framed_length Sample.peak y 2048 512). }
  assert (Hsr : 0 < 16000) by reflexivity.
  split; [exact Hgrid |]. split; [exact Hsr |].
  eexists. split; [vm_compute; reflexivity |]. split; [discriminate |].
  apply (@pauses_within_fifteen_percent (Sample.recorded short_recording)
           short_recording 16000 _ Hgrid Hsr).
  vm_compute. reflexivity.
Defined.

Lemma pause_counts_within_duration_witness :
  (forall y, length (@librosa_feature_rms (Sample.recorded short_recording) y 2048 512)
             = S (length y / 512)) /\
  exists r,
    @analyze_speech (Sample.recorded short_recording) "a.wav" "hello world" "en" = Ok r /\
    0.3 * inject_Z (short_pauses r) + 1.5 * inject_Z (long_pauses r)
    <= 0.15 * @speech_duration (Sample.recorded short_recording) "a.wav" /\
    (@speech_duration (Sample.recorded short_recording) "a.wav" < 10 ->
     long_pauses r = 0%Z).
Proof.
  assert (Hgrid : forall y,
            length (@librosa_feature_rms (Sample.recorded short_recording) y 2048 512)
            = S (length y / 512)).
  { intros y. apply (framed_length Sample.peak y 2048 512). }
  split; [exact Hgrid |].
  eexists. split; [vm_compute; reflexivity |].
  apply (@pause_counts_within_duration (Sample.recorded short_recording)
           "a.wav" "hello world" "en" _ Hgrid).
  vm_compute. reflexivity.
Defined.

Lemma history_keeps_last_ten_witness :
  let user_stats : gmap Z user_record := {[ 7%Z := regular_user ]} in
  let analysis := sample_analysis 130 2 in
  let now := "2025-01-02 09:00"%string in
  user_stats !! 7%Z = Some regular_user /\
  (length (analyses_history regular_user) <= 10)%nat /\
  exists user_stats' stats',
    update_user_stats user_stats now 7 analysis = Ok user_stats' /\
    user_stats' !! 7%Z = Some stats' /\
    analyses_history stats'
    = last_n 10 (analyses_history regular_user ++ [summary now analysis]) /\
    (length (analyses_history stats') <= 10)%nat /\
    last (analyses_history stats') = Some (summary now analysis) /\
    (length (analyses_history regular_user) = 10%nat ->
     analyses_history stats'
     = drop 1 (analyses_history regular_user) ++ [summary now analysis]).
Proof.
  intros user_stats analysis now.
  assert (Hstats : user_stats !! 7%Z = Some regular_user) by reflexivity.
  assert (Hlen : (length (analyses_history regular_user) <= 10)%nat)
    by (vm_compute; lia).
  split; [exact Hstats |]. split; [exact Hlen |].
  exact (history_keeps_last_ten user_stats now 7 analysis regular_user Hstats Hlen).
Defined.

Lemma update_order_changes_only_dates_witness :
  7%Z <> 8%Z /\
  exists stats12 stats21,
    (s ← update_user_stats {[ 7%Z := regular_user ]} "2025-01-02 09:00" 7
           (sample_analysis 130 2);
     update_user_stats s "2025-01-02 09:05" 8 (sample_analysis 90 0)) = Ok stats12 /\
    (s ← update_user_stats {[ 7%Z := regular_user ]} "2025-01-02 09:00" 8
           (sample_analysis 90 0);
     update_user_stats s "2025-01-02 09:05" 7 (sample_analysis 130 2)) = Ok stats21 /\
    (forall user_id,
       undated <$> stats12 !! user_id = undated <$> stats21 !! user_id) /\
    (forall user_id, user_id <> 7%Z -> user_id <> 8%Z ->
       stats12 !! user_id = ({[ 7%Z := regular_user ]} : gmap Z user_record) !! user_id /\
       stats21 !! user_id = ({[ 7%Z := regular_user ]} : gmap Z user_record) !! user_id) /\
    last_analysis_date <$> stats12 !! 7%Z = Some (Some "2025-01-02 09:00"%string) /\
    last_analysis_date <$> stats21 !! 7%Z = Some (Some "2025-01-02 09:05"%string) /\
    last_analysis_date <$> stats12 !! 8%Z = Some (Some "2025-01-02 09:05"%string) /\
    last_analysis_date <$> stats21 !! 8%Z = Some (Some "2025-01-02 09:00"%string) /\
    ("2025-01-02 09:00"%string = "2025-01-02 09:05"%string -> stats12 = stats21) /\
    ("2025-01-02 09:00"%string <> "2025-01-02 09:05"%string -> stats12 <> stats21).
Proof.
  assert (Hne : 7%Z <> 8%Z) by discriminate.
  split; [exact Hne |].
  exact (update_order_changes_only_dates {[ 7%Z := regular_user ]}
           "2025-01-02 09:00" "2025-01-02 09:05" 7 8
           (sample_analysis 130 2) (sample_analysis 90 0) Hne).
Defined.

Ltac not_in_bytes :=
  unfold bytes; simpl; rewrite ?not_elem_of_cons;
  repeat split; (discriminate || apply not_elem_of_nil).

Lemma sanitize_html_removes_plain_tags_witness :
  plain_start "s" = true /\
  (">"%char ∉ bytes "cript src=x") /\ (ascii_of_N 10 ∉ bytes "cript src=x") /\
  sanitize_html ("<" ++ "/" ++ String "s" "cript src=x" ++ ">" ++ "done")
  = sanitize_html "done".
Proof.
  assert (Hc : plain_start "s" = true) by reflexivity.
  assert (Hgt : ">"%char ∉ bytes "cript src=x") by not_in_bytes.
  assert (Hlf : ascii_of_N 10 ∉ bytes "cript src=x") by not_in_bytes.
  split; [exact Hc |]. split; [exact Hgt |]. split; [exact Hlf |].
  exact (sanitize_html_removes_plain_tags true "s" "cript src=x" "done" Hc Hgt Hlf).
Defined.

Lemma sanitize_html_keeps_abiu_tags_witness :
  allowed_start "i" = true /\
  ("<"%char ∉ bytes "see ") /\ ("<"%char ∉ bytes "mg src=x") /\
  sanitize_html
    ("see " ++ "<" ++ EmptyString ++ String "i" "mg src=x" ++ "> and <s>done")
  = ("see " ++ "<" ++ EmptyString ++ String "i" "mg src=x"
     ++ sanitize_html "> and <s>done")%string /\
  forall (c0 : ascii) (body0 : string),
    plain_start c0 = true ->
    ">"%char ∉ bytes body0 -> ascii_of_N 10 ∉ bytes body0 ->
    ">"%char ∉ bytes "mg src=x" -> ascii_of_N 10 ∉ bytes "mg src=x" ->
    sanitize_html
      ("<" ++ String c0 body0 ++ "<" ++ EmptyString
       ++ String "i" "mg src=x" ++ ">" ++ "> and <s>done")
    = sanitize_html "> and <s>done".
Proof.
  assert (Hc : allowed_start "i" = true) by reflexivity.
  assert (Hpre : "<"%char ∉ bytes "see ") by not_in_bytes.
  assert (Hlt : "<"%char ∉ bytes "mg src=x") by not_in_bytes.
  split; [exact Hc |]. split; [exact Hpre |]. split; [exact Hlt |].
  exact (sanitize_html_keeps_abiu_tags false "i" "see " "mg src=x" "> and <s>done"
           Hc Hpre Hlt).
Defined.

(** An image tag alone is kept; inside the open tag [<s] it is removed
    with it, and so is the opening of a bold tag. *)
Example nested_tag_scenario :
  sanitize_html "<img src=x>" = "<img src=x>"%string /\
  sanitize_html "<s <img src=x>" = EmptyString /\
  sanitize_html "<s <b>bold</b>" = "bold</b>"%string.
Proof. repeat split; vm_compute; reflexivity. Qed.

Lemma sanitize_html_keeps_broken_tags_witness :
  ("<"%char ∉ bytes two_lines) /\ (">"%char ∉ bytes two_lines) /\
  (ascii_of_N 10 ∈ bytes two_lines) /\
  sanitize_html ("<" ++ two_lines ++ ">" ++ "done")
  = ("<" ++ two_lines ++ ">" ++ sanitize_html "done")%string.
Proof.
  assert (Hlt : "<"%char ∉ bytes two_lines) by not_in_bytes.
  assert (Hgt : ">"%char ∉ bytes two_lines) by not_in_bytes.
  assert (Hlf : ascii_of_N 10 ∈ bytes two_lines).
  { unfold bytes. simpl. rewrite !elem_of_cons. right. left. reflexivity. }
  split; [exact Hlt |]. split; [exact Hgt |]. split; [exact Hlf |].
  exact (sanitize_html_keeps_broken_tags two_lines "done" Hlt Hgt Hlf).
Defined.

Lemma sanitize_html_can_leave_a_tag_witness :
  plain_start "x" = true /\
  (">"%char ∉ bytes EmptyString) /\ (ascii_of_N 10 ∉ bytes EmptyString) /\
  sanitize_html ("<<" ++ EmptyString ++ String "x" EmptyString ++ ">" ++ "script>")
  = ("<" ++ sanitize_html "script>")%string.
Proof.
  assert (Hc : plain_start "x" = true) by reflexivity.
  assert (Hgt : ">"%char ∉ bytes EmptyString) by apply not_elem_of_nil.
  assert (Hlf : ascii_of_N 10 ∉ bytes EmptyString) by apply not_elem_of_nil.
  split; [exact Hc |]. split; [exact Hgt |]. split; [exact Hlf |].
  exact (sanitize_html_can_leave_a_tag false "x" EmptyString "script>" Hc Hgt Hlf).
Defined.

Lemma stats_after_replay_witness :
  let lang := user_language ∅ 7 in
  let es := entries_of 7 three_calls in
  (lang = "ru"%string \/ lang = "en"%string) /\
  es <> [] /\
  exists user_stats,
    replay three_calls ∅ = Ok user_stats /\
    stats_handler ∅ user_stats 7
    = Ok [reply_text
            (statistics lang (len es)
               (py_round (foldl Qplus 0 (map wpm es) / inject_Z (len es)) 1)
               (py_round (inject_Z (foldl Z.add 0%Z (map fillers es))
                          / inject_Z (len es)) 1)
               (date <$> last es)
               (enumerate_from 1 (last_n 5 es)))
            lang].
Proof.
  intros lang es.
  assert (Hlang : lang = "ru"%string \/ lang = "en"%string) by (right; reflexivity).
  assert (Hes : es <> []) by discriminate.
  split; [exact Hlang |]. split; [exact Hes |].
  exact (stats_after_replay three_calls ∅ 7 Hlang Hes).
Defined.

Lemma menu_labels_route_witness :
  let lang := user_language {[ 7%Z := "ru"%string ]} 7 in
  (lang = "ru"%string \/ lang = "en"%string) /\
  exists labels,
    TRANSLATIONS !! "en"%string = Some labels /\
    btn_help labels = "❓ Help"%string /\
    text_menu_handler {[ 7%Z := "ru"%string ]} ∅ 7 (btn_help labels)
    = help_handler {[ 7%Z := "ru"%string ]} 7 /\
    text_menu_handler {[ 7%Z := "ru"%string ]} ∅ 7 (btn_stats labels)
    = stats_handler {[ 7%Z := "ru"%string ]} ∅ 7 /\
    text_menu_handler {[ 7%Z := "ru"%string ]} ∅ 7 (btn_tips labels)
    = tips_handler {[ 7%Z := "ru"%string ]} 7 /\
    text_menu_handler {[ 7%Z := "ru"%string ]} ∅ 7 (btn_settings labels)
    = settings_handler {[ 7%Z := "ru"%string ]} 7 /\
    text_menu_handler {[ 7%Z := "ru"%string ]} ∅ 7 (btn_send_audio labels)
    = Ok [reply_inline (written "ready_to_analyze" (negb (String.eqb lang "en"))) []].
Proof.
  intros lang.
  assert (Hlang : lang = "ru"%string \/ lang = "en"%string) by (left; reflexivity).
  split; [exact Hlang |].
  eexists. split; [reflexivity |]. split; [reflexivity |].
  apply (menu_labels_route {[ 7%Z := "ru"%string ]} ∅ 7 "en" _ Hlang).
  reflexivity.
Defined.
